(** * cray/modules/cfs/cli.py: the patched CFS command line

    The module takes the command tree generated from the CFS OpenAPI
    description and patches three leaves: [configurations update],
    [sessions create] and [components update].  This development embeds the
    patching script and the three payload shims and proves the properties
    stated for them.

    Python values are embedded as follows.
    - [str] is a sequence of Unicode code points: [pystr := list N].
    - dynamically typed values are the inductive [pyval]; a [dict] with
      string keys whose order can be observed is an association list in
      insertion order; the command mappings of the tree are [gmap]s.
    - the [{"name": .., "value": ..}] dict built for each option is the
      record [opt_value].
    - exceptions are the type [exn]; code that may raise returns [result].
    - code that reads files or calls a callback runs in the monad [M],
      a state monad over [world] that also carries exceptions. *)

From Stdlib Require Import ZArith NArith List Ascii Lia.
From Stdlib Require Import Floats.SpecFloat.
From stdpp Require Import base option list gmap strings.

Set Warnings "-register-all".

(** ** Strings *)

Module Str.

(** A code point. *)
Definition char : Type := N.

(** Python [str]. *)
Definition pystr : Type := list char.

(** The [str] denoted by an ASCII literal. *)
Definition str (s : string) : pystr :=
  Ascii.N_of_ascii <$> String.list_ascii_of_string s.

(** The double quote, which a literal cannot hold. *)
Definition dquote : char := 34%N.

Definition comma : char := 44%N.

Definition dash : char := 45%N.

Definition underscore : char := 95%N.

(** [c.isspace()] for one code point, as CPython's
    [_PyUnicode_IsWhitespace] decides it. *)
Definition isspace (c : char) : bool :=
  ((9 <=? c) && (c <=? 13))%N || ((28 <=? c) && (c <=? 32))%N
  || (c =? 133)%N || (c =? 160)%N || (c =? 5760)%N
  || ((8192 <=? c) && (c <=? 8202))%N
  || (c =? 8232)%N || (c =? 8233)%N || (c =? 8239)%N || (c =? 8287)%N
  || (c =? 12288)%N.

(** [s.lstrip()]. *)
Fixpoint lstrip (s : pystr) : pystr :=
  match s with
  | [] => []
  | c :: s' => if isspace c then lstrip s' else s
  end.

(** [s.rstrip()]. *)
Definition rstrip (s : pystr) : pystr := reverse (lstrip (reverse s)).

(** [s.strip()]: leading and trailing whitespace removed. *)
Definition strip (s : pystr) : pystr := rstrip (lstrip s).

(** [s.split(sep)] for a separator of one code point: the result is
    never empty, and two adjacent separators delimit an empty token. *)
Fixpoint split (sep : char) (s : pystr) : list pystr :=
  match s with
  | [] => [[]]
  | c :: s' =>
      if (c =? sep)%N then [] :: split sep s'
      else match split sep s' with
           | tok :: toks => (c :: tok) :: toks
           | [] => [[c]]
           end
  end.

(** [sep.join(toks)]. *)
Fixpoint join (sep : char) (toks : list pystr) : pystr :=
  match toks with
  | [] => []
  | tok :: toks' =>
      match toks' with
      | [] => tok
      | _ :: _ => tok ++ sep :: join sep toks'
      end
  end.

(** [s.startswith(prefix)]. *)
Fixpoint startswith (s prefix : pystr) : bool :=
  match prefix, s with
  | [], _ => true
  | p :: prefix', c :: s' => (c =? p)%N && startswith s' prefix'
  | _ :: _, [] => false
  end.

(** [s.lstrip(c)] for one code point [c]. *)
Fixpoint lstrip_char (c : char) (s : pystr) : pystr :=
  match s with
  | [] => []
  | c' :: s' => if (c' =? c)%N then lstrip_char c s' else s
  end.

(** [s.replace(old, new)] for single code points. *)
Definition replace (old new : char) (s : pystr) : pystr :=
  (fun c => if (c =? old)%N then new else c) <$> s.

End Str.
Export Str.

(** ** Values *)

(** Python values that reach this module: option values delivered by the
    option parser and documents decoded by [json.loads].  A float is kept
    as the binary floating point datum it denotes. *)
Inductive pyval : Type :=
| PNone
| PBool (b : bool)
| PInt (z : Z)
| PFloat (f : spec_float)
| PStr (s : pystr)
| PList (l : list pyval)
| PDict (d : list (pystr * pyval)).

(** [v is None]. *)
Definition is_None (v : pyval) : bool :=
  match v with PNone => true | _ => false end.

(** Truth value testing, [bool(v)]. *)
Definition truthy (v : pyval) : bool :=
  match v with
  | PNone => false
  | PBool b => b
  | PInt z => negb (z =? 0)%Z
  | PFloat f => match f with S754_zero _ => false | _ => true end
  | PStr s => match s with [] => false | _ => true end
  | PList l => match l with [] => false | _ => true end
  | PDict d => match d with [] => false | _ => true end
  end.

(** ** Dictionaries with string keys, in insertion order *)

Module Dict.

Definition dict (V : Type) : Type := list (pystr * V).

(** [d.get(k)]. *)
Fixpoint get {V : Type} (k : pystr) (d : dict V) : option V :=
  match d with
  | [] => None
  | (k', v) :: d' => if decide (k' = k) then Some v else get k d'
  end.

(** [d[k] = v]: an existing key keeps its place, a new key goes last. *)
Fixpoint set {V : Type} (k : pystr) (v : V) (d : dict V) : dict V :=
  match d with
  | [] => [(k, v)]
  | (k', v') :: d' =>
      if decide (k' = k) then (k', v) :: d' else (k', v') :: set k v d'
  end.

(** [del d[k]] on a dict that holds [k]; no change otherwise. *)
Fixpoint remove {V : Type} (k : pystr) (d : dict V) : dict V :=
  match d with
  | [] => []
  | (k', v') :: d' =>
      if decide (k' = k) then remove k d' else (k', v') :: remove k d'
  end.

(** [list(d.keys())]. *)
Definition keys {V : Type} (d : dict V) : list pystr := fst <$> d.

End Dict.
Import Dict.

(** ** Exceptions *)

Inductive exn : Type :=
| Exception (msg : pystr)
| KeyError (key : pystr)
| AttributeError (attr : pystr)
| TypeError (msg : pystr)
| FileNotFoundError (path : pystr)
| JSONDecodeError (msg : pystr)
| RecursionError.

(** The outcome of a computation: a value, or a raised exception. *)
Inductive result (A : Type) : Type :=
| Ok (a : A)
| Raise (e : exn).
Arguments Ok {A} a.
Arguments Raise {A} e.

#[global] Instance result_ret : MRet result := fun A a => Ok a.

#[global] Instance result_bind : MBind result := fun A B f r =>
  match r with
  | Ok a => f a
  | Raise e => Raise e
  end.

(** ** Option values, keyword arguments and the world *)

(** The dict [{"name": .., "value": ..}] every option resolves to; [value]
    is [PNone] when the option was not supplied. *)
Record opt_value : Type := { name : pystr; value : pyval }.

(** Keyword arguments, [**kwargs]: parameter name to option value. *)
Definition kwargs : Type := dict opt_value.

(** A generated callback is known by the path of its command in the
    generated tree. *)
Definition label : Type := list pystr.

(** What the shims can observe and change: the files that [open] reads,
    and the log of calls made to generated callbacks, oldest first. *)
Record world : Type := {
  files : gmap pystr pystr;
  calls : list (label * kwargs)
}.

(** Computations with effects. *)
Definition M (A : Type) : Type := world -> result A * world.

#[global] Instance M_ret : MRet M := fun A a w => (Ok a, w).

#[global] Instance M_bind : MBind M := fun A B f m w =>
  match m w with
  | (Ok a, w') => f a w'
  | (Raise e, w') => (Raise e, w')
  end.

(** [raise e]. *)
Definition raise {A : Type} (e : exn) : M A := fun w => (Raise e, w).

(** A computation without effects. *)
Definition lift {A : Type} (r : result A) : M A := fun w => (r, w).

(** A Python callable invoked with keyword arguments only. *)
Definition pycallable : Type := kwargs -> M pyval.

(** The callback the generator binds to the command at path [l]: it
    performs the API request, which is outside this module.  The call is
    logged; [respond] stands for the outcome of the request. *)
Definition generated (l : label) (respond : kwargs -> result pyval)
  : pycallable :=
  fun kw w => (respond kw, {| files := files w; calls := calls w ++ [(l, kw)] |}).

(** [with open(path, 'r') as f: f.read()].  The options that name files
    are declared [type=str]; any other value is rejected. *)
Definition open_read (path : pyval) : M pystr :=
  fun w =>
    match path with
    | PStr p =>
        match files w !! p with
        | Some content => (Ok content, w)
        | None => (Raise (FileNotFoundError p), w)
        end
    | _ => (Raise (TypeError (str "expected str, bytes or os.PathLike object")), w)
    end.

(** ** The command tree *)

Module Param.

(** An option descriptor. *)
Record t : Type := {
  name : pystr;
  payload_name : pystr;
  is_flag : bool;
  multiple : bool;
  nargs : nat;
  required : bool
}.

End Param.

(** A node of the tree, as click has it: a group is a command that also
    maps names to sub-commands. *)
Inductive command : Type :=
| Command (params : list Param.t) (callback : pycallable)
    (commands : option (gmap pystr command)).

(** [cmd.params]. *)
Definition params (cmd : command) : list Param.t :=
  match cmd with Command ps _ _ => ps end.

(** [cmd.callback]. *)
Definition callback (cmd : command) : pycallable :=
  match cmd with Command _ cb _ => cb end.

(** [cmd.commands]; a leaf has no such attribute. *)
Definition commands (cmd : command) : result (gmap pystr command) :=
  match cmd with
  | Command _ _ (Some cs) => Ok cs
  | Command _ _ None => Raise (AttributeError (str "commands"))
  end.

(** [cmd.params = ps]. *)
Definition set_params (ps : list Param.t) (cmd : command) : command :=
  match cmd with Command _ cb cs => Command ps cb cs end.

(** [cmd.callback = cb]. *)
Definition set_callback (cb : pycallable) (cmd : command) : command :=
  match cmd with Command ps _ cs => Command ps cb cs end.

(** [cmd.commands = cs]. *)
Definition set_commands (cs : gmap pystr command) (cmd : command) : command :=
  match cmd with Command ps cb _ => Command ps cb (Some cs) end.

(** [m[k]]. *)
Definition getitem {V : Type} (k : pystr) (m : gmap pystr V) : result V :=
  match m !! k with
  | Some v => Ok v
  | None => Raise (KeyError k)
  end.

(** [del m[k]]. *)
Definition delitem {V : Type} (k : pystr) (m : gmap pystr V)
  : result (gmap pystr V) :=
  match m !! k with
  | Some _ => Ok (delete k m)
  | None => Raise (KeyError k)
  end.

(** [cmd.commands[k]]. *)
Definition subcommand (k : pystr) (cmd : command) : result command :=
  cs ← commands cmd; getitem k cs.

(** ** Collaborators outside the module *)

(** What the module imports and this development takes as given:
    [cray.constants.FROM_FILE_TAG], [json.loads] on a [str], and
    [cray.generator.generate], which maps its swagger options to the
    generated tree. *)
Class Externals : Type := {
  FROM_FILE_TAG : pystr;
  json_loads : pystr -> result pyval;
  generate : dict (dict pystr) -> command
}.

(** click's invocation context; the callbacks of this module ignore it. *)
Definition context : Type := unit.

(** Modelled from the spec: [cray.generator._opt_callback] is imported by
    the module and not part of it.  It "normalize[s] every parsed
    command-line value ... into [{name: <payload_name>, value:
    <parsed_value_or_None>}]". *)
Definition _opt_callback (ctx : context) (param : Param.t) (v : pyval)
  : opt_value :=
  {| name := Param.payload_name param; value := v |}.

(** Modelled from the spec: [cray.core.option] is imported by the module
    and not part of it: "a decorator-style mechanism to attach new options
    ... to an existing command".  The new descriptor goes last in
    [cmd.params], which the slices [params[-2:]] and [params[-1]] of the
    module rely on; its name is the flag without its dashes, inner dashes
    turned into underscores, and its payload name defaults to that name.
    The parsing callback given with [callback=] is applied by the option
    parser and is embedded on its own below. *)
Definition core_option (flag : pystr) (payload_name : option pystr)
    (is_flag multiple : bool) (nargs : nat) (required : bool)
    (cmd : command) : command :=
  let n := replace dash underscore (lstrip_char dash flag) in
  let p := {| Param.name := n;
              Param.payload_name := default n payload_name;
              Param.is_flag := is_flag;
              Param.multiple := multiple;
              Param.nargs := nargs;
              Param.required := required |} in
  set_params (params cmd ++ [p]) cmd.

(** A function defined as [def f(a, **kwargs)] and called with keyword
    arguments only: [a] is taken out of the keywords, and its absence is a
    [TypeError]. *)
Definition pop_arg (k : pystr) (args : kwargs) : M (opt_value * kwargs) :=
  match get k args with
  | Some v => mret (v, remove k args)
  | None => raise (TypeError (str "missing a required argument"))
  end.

Definition by_keyword2 (k1 k2 : pystr)
    (f : opt_value -> opt_value -> kwargs -> M pyval) : pycallable :=
  fun args =>
    '(a1, args) ← pop_arg k1 args;
    '(a2, args) ← pop_arg k2 args;
    f a1 a2 args.

Definition by_keyword3 (k1 k2 k3 : pystr)
    (f : opt_value -> opt_value -> opt_value -> kwargs -> M pyval)
  : pycallable :=
  fun args =>
    '(a1, args) ← pop_arg k1 args;
    '(a2, args) ← pop_arg k2 args;
    '(a3, args) ← pop_arg k3 args;
    f a1 a2 a3 args.

(** ** The module *)

Section Cli.

Context `{E : Externals}.

Definition CURRENT_VERSION : pystr := str "v2".

Definition SWAGGER_OPTS : dict (dict pystr) :=
  [(str "vocabulary", [(str "deleteall", str "deleteall")])].

(** [json.loads(v)]: anything but text is a [TypeError]. *)
Definition json_loads_value (v : pyval) : result pyval :=
  match v with
  | PStr s => json_loads s
  | _ => Raise (TypeError (str "the JSON object must be str, bytes or bytearray"))
  end.

(** [cli.commands = cli.commands[CURRENT_VERSION].commands]. *)
Definition select_version (cli : command) : result command :=
  v ← subcommand CURRENT_VERSION cli;
  cs ← commands v;
  mret (set_commands cs cli).

(** [cmd.commands[k] = sub]. *)
Definition set_subcommand (k : pystr) (sub : command) (cmd : command)
  : result command :=
  cs ← commands cmd;
  mret (set_commands (<[k := sub]> cs) cmd).

(** The comprehension both payload shims start from:
    [{v['name']: v['value'] for _, v in kwargs.items()
      if v['value'] is not None}]. *)
Definition option_payload (kw : kwargs) : dict pyval :=
  fold_left
    (fun payload '(_, v) =>
       if is_None (value v) then payload else set (name v) (value v) payload)
    kw [].

(** *** Configurations *)

(** [create_configurations_shim(update_callback, patch_callback)] applied
    to the arguments of its [_decorator]. *)
Definition create_configurations_shim
    (update_callback patch_callback : pycallable)
    (configuration_id file update_branches : opt_value) (kw : kwargs)
  : M pyval :=
  let file_name := value file in
  if truthy file_name then
    content ← open_read (value file);
    data ← lift (json_loads content);
    let payload := data in
    let kw := set FROM_FILE_TAG {| value := payload; name := FROM_FILE_TAG |} kw in
    update_callback ((str "configuration_id", configuration_id) :: kw)
  else if truthy (value update_branches) then
    patch_callback ((str "configuration_id", configuration_id) :: kw)
  else
    raise (Exception
             (str "Either --file or --update-branches must be set for updates")).

(** [setup_configuration_from_file(cfs_cli)]; the tree it mutates in place
    is returned. *)
Definition setup_configuration_from_file (cfs_cli : command)
  : result command :=
  let tmp_swagger_opts := [(str "vocabulary", [(str "patch", str "patch")])] in
  tmp_cli ← select_version (generate tmp_swagger_opts);
  configurations ← subcommand (str "configurations") tmp_cli;
  update_command ← subcommand (str "update") configurations;
  patch_command ← subcommand (str "patch") configurations;
  let update_command :=
    core_option (str "--file") None false false 1 false update_command in
  let update_command :=
    core_option (str "--update-branches") None true false 1 false
      update_command in
  let ps := params update_command in
  let new_params := drop (length ps - 2) ps in
  let new_params :=
    fold_left
      (fun new_params param =>
         if negb (startswith (Param.name param) (str "layers_"))
         then new_params ++ [param] else new_params)
      (take (length ps - 2) ps) new_params in
  let update_command := set_params new_params update_command in
  let update_command :=
    set_callback
      (by_keyword3 (str "configuration_id") (str "file") (str "update_branches")
         (create_configurations_shim (callback update_command)
            (callback patch_command)))
      update_command in
  cfs_configurations ← subcommand (str "configurations") cfs_cli;
  cfs_configurations ←
    set_subcommand (str "update") update_command cfs_configurations;
  set_subcommand (str "configurations") cfs_configurations cfs_cli.

(** *** Sessions *)

Definition GROUP_MEMBERS_PAYLOAD : pystr := str "target-groups-members".
Definition GROUP_NAME_PAYLOAD : pystr := str "target-groups-name".
Definition GROUPS_PAYLOAD : pystr := str "target-group".

(** [_targets_callback(cb)] applied to the arguments of its [_cb].  The
    option is declared [nargs=2, type=click.Tuple([str, str]),
    multiple=True], so [value] is a sequence of pairs of strings. *)
Definition _targets_callback {R : Type}
    (cb : option (context -> Param.t -> pyval -> R))
    (ctx : context) (param : Param.t) (v : list (pystr * pystr))
  : pyval + R :=
  let groups :=
    fold_left
      (fun groups '(group, members) =>
         let members := strip <$> split comma members in
         groups ++ [PDict [(str "name", PStr group);
                           (str "members", PList (PStr <$> members))]])
      v [] in
  match cb with
  | Some cb => inr (cb ctx param (PList groups))
  | None => inl (PList groups)
  end.

(** The loop that rebuilds the parameters of [CREATE_CMD]. *)
Definition create_cmd_params (ps : list Param.t) : list Param.t :=
  fold_left
    (fun params p =>
       if bool_decide (Param.payload_name p
                         ∈ [GROUP_MEMBERS_PAYLOAD; GROUP_NAME_PAYLOAD])
       then params
       else if bool_decide (Param.payload_name p = GROUPS_PAYLOAD)
       then take 1 params ++ p :: drop 1 params
       else params ++ [p])
    ps [].

(** [create_sessions_shim(func)] applied to the arguments of its
    [_decorator]. *)
Definition create_sessions_shim (func : pycallable)
    (target_definition target_group : opt_value) (kw : kwargs) : M pyval :=
  let payload := option_payload kw in
  let payload :=
    set (str "target")
      (PDict [(str "definition", value target_definition);
              (str "groups", value target_group)])
      payload in
  let kw := set FROM_FILE_TAG {| value := PDict payload; name := FROM_FILE_TAG |} kw in
  func kw.

(** *** Components *)

(** [create_components_shim(func)] applied to the arguments of its
    [_decorator]. *)
Definition create_components_shim (func : pycallable)
    (component_id state : opt_value) (kw : kwargs) : M pyval :=
  let payload := option_payload kw in
  payload ←
    (if truthy (value state) then
       parsed ← lift (json_loads_value (value state));
       mret (set (str "state") parsed payload)
     else mret payload);
  let kw := set FROM_FILE_TAG {| value := PDict payload; name := FROM_FILE_TAG |} kw in
  func ((str "component_id", component_id) :: kw).

(** [setup_component_state(cfs_cli)]; the tree it mutates in place is
    returned. *)
Definition setup_component_state (cfs_cli : command) : result command :=
  components ← subcommand (str "components") cfs_cli;
  command ← subcommand (str "update") components;
  let command :=
    core_option (str "--state") None false false 1 false command in
  let ps := params command in
  let new_params := drop (length ps - 1) ps in
  let new_params :=
    fold_left
      (fun new_params param =>
         if negb (startswith (Param.name param) (str "state_"))
         then new_params ++ [param] else new_params)
      (take (length ps - 1) ps) new_params in
  let command := set_params new_params command in
  let command :=
    set_callback
      (by_keyword2 (str "component_id") (str "state")
         (create_components_shim (callback command)))
      command in
  components ← set_subcommand (str "update") command components;
  set_subcommand (str "components") components cfs_cli.

(** *** The module body, top to bottom *)

(** The value of the module's [cli] once the module has been imported, or
    the exception that aborts the import. *)
Definition cli : result command :=
  cli ← select_version (generate SWAGGER_OPTS);
  cli ← setup_configuration_from_file cli;
  sessions ← subcommand (str "sessions") cli;
  CREATE_CMD ← subcommand (str "create") sessions;
  (* del cli.commands['sessions'].commands['update'] *)
  sessions_commands ← commands sessions;
  sessions_commands ← delitem (str "update") sessions_commands;
  let CREATE_CMD :=
    core_option (str "--target-group") (Some GROUPS_PAYLOAD) false true 2
      false CREATE_CMD in
  let CREATE_CMD := set_params (create_cmd_params (params CREATE_CMD)) CREATE_CMD in
  let CREATE_CMD :=
    set_callback
      (by_keyword2 (str "target_definition") (str "target_group")
         (create_sessions_shim (callback CREATE_CMD)))
      CREATE_CMD in
  (* CREATE_CMD is the object held by the tree: its new state is the
     tree's *)
  let sessions :=
    set_commands (<[str "create" := CREATE_CMD]> sessions_commands) sessions in
  cli ← set_subcommand (str "sessions") sessions cli;
  setup_component_state cli.

End Cli.

(** ** A decoder for JSON text

    [JSON.loads] follows the decoder of Python's [json] package
    ([json.decoder], [json.scanner]) with its default settings.  The
    theorems on the shims hold for whatever [json.loads] does; this decoder
    is the one the examples run.  A decode error carries the message of the
    error; the position is left out. *)

Module JSON.

(** The outcome of scanning a value at the head of a text. *)
Inductive scan (A : Type) : Type :=
| Scanned (a : A) (rest : pystr)
| Failed (msg : pystr)
| Exhausted.
Arguments Scanned {A} a rest.
Arguments Failed {A} msg.
Arguments Exhausted {A}.

(** The code point of an ASCII character. *)
Definition ch (a : ascii) : char := N_of_ascii a.

Definition backslash : char := 92%N.

(** [c in ' \t\n\r']. *)
Definition is_ws (c : char) : bool :=
  (c =? 32)%N || (c =? 9)%N || (c =? 10)%N || (c =? 13)%N.

Fixpoint skip_ws (s : pystr) : pystr :=
  match s with
  | [] => []
  | c :: s' => if is_ws c then skip_ws s' else s
  end.

Definition is_digit (c : char) : bool := ((48 <=? c) && (c <=? 57))%N.

(** The longest prefix of digits, and what follows it. *)
Fixpoint span_digits (s : pystr) : pystr * pystr :=
  match s with
  | [] => ([], [])
  | c :: s' =>
      if is_digit c then let '(ds, rest) := span_digits s' in (c :: ds, rest)
      else ([], s)
  end.

(** The number a sequence of digits denotes in base ten. *)
Definition decimal (ds : pystr) : Z :=
  fold_left (fun n c => (10 * n + Z.of_N (c - 48))%Z) ds 0%Z.

Definition hex_digit (c : char) : option N :=
  if is_digit c then Some (c - 48)%N
  else if ((97 <=? c) && (c <=? 102))%N then Some (c - 87)%N
  else if ((65 <=? c) && (c <=? 70))%N then Some (c - 55)%N
  else None.

(** [_decode_uXXXX]: four hexadecimal digits at the head of [s]. *)
Definition decode_uXXXX (s : pystr) : option (N * pystr) :=
  match s with
  | c1 :: c2 :: c3 :: c4 :: rest =>
      h1 ← hex_digit c1; h2 ← hex_digit c2;
      h3 ← hex_digit c3; h4 ← hex_digit c4;
      Some (((h1 * 16 + h2) * 16 + h3) * 16 + h4, rest)%N
  | _ => None
  end.

(** The character an escape letter stands for. *)
Definition unescape (c : char) : option char :=
  if (c =? dquote)%N then Some dquote
  else if (c =? backslash)%N then Some backslash
  else if (c =? ch "/")%N then Some (ch "/")
  else if (c =? ch "b")%N then Some 8%N
  else if (c =? ch "f")%N then Some 12%N
  else if (c =? ch "n")%N then Some 10%N
  else if (c =? ch "r")%N then Some 13%N
  else if (c =? ch "t")%N then Some 9%N
  else None.

(** [scanstring], entered after the opening quote; [acc] holds the
    characters read so far, last first. *)
Fixpoint scanstring (fuel : nat) (s : pystr) (acc : pystr) : scan pystr :=
  match fuel with
  | O => Exhausted
  | S fuel =>
      match s with
      | [] => Failed (str "Unterminated string starting at")
      | c :: s' =>
          if (c =? dquote)%N then Scanned (rev acc) s'
          else if (c =? backslash)%N then
            match s' with
            | [] => Failed (str "Unterminated string starting at")
            | e :: s'' =>
                if (e =? ch "u")%N then
                  match decode_uXXXX s'' with
                  | None => Failed (str "Invalid \uXXXX escape")
                  | Some (uni, rest) =>
                      if ((55296 <=? uni) && (uni <=? 56319))%N
                         && startswith rest (str "\u")
                      then
                        match decode_uXXXX (drop 2 rest) with
                        | None => Failed (str "Invalid \uXXXX escape")
                        | Some (uni2, rest2) =>
                            if ((56320 <=? uni2) && (uni2 <=? 57343))%N
                            then
                              scanstring fuel rest2
                                ((65536 + ((uni - 55296) * 1024
                                           + (uni2 - 56320)))%N :: acc)
                            else scanstring fuel rest (uni :: acc)
                        end
                      else scanstring fuel rest (uni :: acc)
                  end
                else
                  match unescape e with
                  | Some c' => scanstring fuel s'' (c' :: acc)
                  | None => Failed (str "Invalid \escape")
                  end
            end
          else if (c <? 32)%N then Failed (str "Invalid control character at")
          else scanstring fuel s' (c :: acc)
      end
  end.

(** [float(text)] for the decimal [m * 10^e10], rounded to the nearest
    binary64 datum, ties to even. *)
Definition float_of_decimal (neg : bool) (m : Z) (e10 : Z) : spec_float :=
  match m with
  | Zpos _ =>
      if (0 <=? e10)%Z then
        match (m * 10 ^ e10)%Z with
        | Zpos n => binary_round 53 1024 neg n 0
        | _ => S754_zero neg
        end
      else
        let d := (10 ^ (- e10))%Z in
        let s := (Z.log2 d + 65)%Z in
        let n := (m * 2 ^ s)%Z in
        let q := (n / d)%Z in
        let sticky := if (n mod d =? 0)%Z then 0%Z else 1%Z in
        match (2 * q + sticky)%Z with
        | Zpos n' => binary_round 53 1024 neg n' (- (s + 1))
        | _ => S754_zero neg
        end
  | _ => S754_zero neg
  end.

(** [NUMBER_RE.match] and the conversion of what it matched: an optional
    minus sign, then a single zero or digits that do not start with zero;
    then, optionally, a point and digits; then, optionally, an exponent
    mark, a sign and digits.  Without fraction and exponent the number is
    an [int], otherwise a [float]. *)
Definition match_number (s : pystr) : option (pyval * pystr) :=
  let '(neg, s1) :=
    match s with
    | c :: s' => if (c =? ch "-")%N then (true, s') else (false, s)
    | [] => (false, s)
    end in
  let integer :=
    match s1 with
    | c :: s' =>
        if (c =? ch "0")%N then Some ([c], s')
        else if is_digit c then Some (span_digits s1)
        else None
    | [] => None
    end in
  match integer with
  | None => None
  | Some (ds, s2) =>
      let '(frac, s3) :=
        match s2 with
        | c :: s' =>
            if (c =? ch ".")%N then
              match span_digits s' with
              | ([], _) => ([], s2)
              | (fs, rest) => (fs, rest)
              end
            else ([], s2)
        | [] => ([], s2)
        end in
      let '(exp, s4) :=
        match s3 with
        | c :: s' =>
            if (c =? ch "e")%N || (c =? ch "E")%N then
              let '(eneg, s'') :=
                match s' with
                | c' :: t =>
                    if (c' =? ch "-")%N then (true, t)
                    else if (c' =? ch "+")%N then (false, t)
                    else (false, s')
                | [] => (false, s')
                end in
              match span_digits s'' with
              | ([], _) => (None, s3)
              | (es, rest) =>
                  (Some (if eneg then (- decimal es)%Z else decimal es), rest)
              end
            else (None, s3)
        | [] => (None, s3)
        end in
      match frac, exp with
      | [], None => Some (PInt (if neg then (- decimal ds)%Z else decimal ds), s4)
      | _, _ =>
          Some (PFloat (float_of_decimal neg (decimal (ds ++ frac))
                          (default 0%Z exp - Z.of_nat (length frac))), s4)
      end
  end.

(** The constants the scanner accepts besides numbers. *)
Definition match_constant (s : pystr) : option (pyval * pystr) :=
  if startswith s (str "null") then Some (PNone, drop 4 s)
  else if startswith s (str "true") then Some (PBool true, drop 4 s)
  else if startswith s (str "false") then Some (PBool false, drop 5 s)
  else None.

Definition match_nonfinite (s : pystr) : option (pyval * pystr) :=
  if startswith s (str "NaN") then Some (PFloat S754_nan, drop 3 s)
  else if startswith s (str "Infinity")
  then Some (PFloat (S754_infinity false), drop 8 s)
  else if startswith s (str "-Infinity")
  then Some (PFloat (S754_infinity true), drop 9 s)
  else None.

(** [scan_once], with [JSONArray] and [JSONObject] (entered after the
    opening bracket) and their loops. *)
Fixpoint scan_once (fuel : nat) (s : pystr) : scan pyval :=
  match fuel with
  | O => Exhausted
  | S fuel =>
      match s with
      | [] => Failed (str "Expecting value")
      | c :: s' =>
          if (c =? dquote)%N then
            match scanstring (S (length s')) s' [] with
            | Scanned t rest => Scanned (PStr t) rest
            | Failed msg => Failed msg
            | Exhausted => Exhausted
            end
          else if (c =? ch "{")%N then JSONObject fuel s'
          else if (c =? ch "[")%N then JSONArray fuel s'
          else
            match match_constant s with
            | Some (v, rest) => Scanned v rest
            | None =>
                match match_number s with
                | Some (v, rest) => Scanned v rest
                | None =>
                    match match_nonfinite s with
                    | Some (v, rest) => Scanned v rest
                    | None => Failed (str "Expecting value")
                    end
                end
            end
      end
  end
with JSONArray (fuel : nat) (s : pystr) : scan pyval :=
  match fuel with
  | O => Exhausted
  | S fuel =>
      match skip_ws s with
      | [] => array_items fuel [] []
      | c :: rest =>
          if (c =? ch "]")%N then Scanned (PList []) rest
          else array_items fuel (c :: rest) []
      end
  end
with array_items (fuel : nat) (s : pystr) (values : list pyval) : scan pyval :=
  match fuel with
  | O => Exhausted
  | S fuel =>
      match scan_once fuel s with
      | Scanned v rest =>
          match skip_ws rest with
          | [] => Failed (str "Expecting ',' delimiter")
          | c :: rest' =>
              if (c =? ch "]")%N then Scanned (PList (values ++ [v])) rest'
              else if (c =? comma)%N
              then array_items fuel (skip_ws rest') (values ++ [v])
              else Failed (str "Expecting ',' delimiter")
          end
      | Failed msg => Failed msg
      | Exhausted => Exhausted
      end
  end
with JSONObject (fuel : nat) (s : pystr) : scan pyval :=
  match fuel with
  | O => Exhausted
  | S fuel =>
      match skip_ws s with
      | [] => Failed (str "Expecting property name enclosed in double quotes")
      | c :: rest =>
          if (c =? ch "}")%N then Scanned (PDict []) rest
          else if (c =? dquote)%N then object_items fuel rest []
          else Failed (str "Expecting property name enclosed in double quotes")
      end
  end
with object_items (fuel : nat) (s : pystr) (pairs : dict pyval) : scan pyval :=
  match fuel with
  | O => Exhausted
  | S fuel =>
      match scanstring (S (length s)) s [] with
      | Scanned key rest =>
          match skip_ws rest with
          | [] => Failed (str "Expecting ':' delimiter")
          | c :: rest' =>
              if (c =? ch ":")%N then
                match scan_once fuel (skip_ws rest') with
                | Scanned v rest'' =>
                    let pairs := set key v pairs in
                    match skip_ws rest'' with
                    | [] => Failed (str "Expecting ',' delimiter")
                    | c' :: rest3 =>
                        if (c' =? ch "}")%N then Scanned (PDict pairs) rest3
                        else if (c' =? comma)%N then
                          match skip_ws rest3 with
                          | [] =>
                              Failed (str "Expecting property name enclosed in double quotes")
                          | q :: rest4 =>
                              if (q =? dquote)%N
                              then object_items fuel rest4 pairs
                              else Failed (str "Expecting property name enclosed in double quotes")
                          end
                        else Failed (str "Expecting ',' delimiter")
                    end
                | Failed msg => Failed msg
                | Exhausted => Exhausted
                end
              else Failed (str "Expecting ':' delimiter")
          end
      | Failed msg => Failed msg
      | Exhausted => Exhausted
      end
  end.

(** [json.loads(s)] for a [str]. *)
Definition loads (s : pystr) : result pyval :=
  if startswith s [65279%N]
  then Raise (JSONDecodeError (str "Unexpected UTF-8 BOM (decode using utf-8-sig)"))
  else
    match scan_once (3 * length s + 3) (skip_ws s) with
    | Scanned v rest =>
        match skip_ws rest with
        | [] => Ok v
        | _ :: _ => Raise (JSONDecodeError (str "Extra data"))
        end
    | Failed msg => Raise (JSONDecodeError msg)
    | Exhausted => Raise RecursionError
    end.

End JSON.


(** ** A concrete setting

    A generated tree of the shape the module expects, the decoder above for
    [json.loads], and callbacks that log their call and answer [None]. *)

Module Example.

Definition answer_none : kwargs -> result pyval := fun _ => Ok PNone.

Definition leaf (l : list string) (ps : list Param.t) : command :=
  Command ps (generated (str <$> l) answer_none) None.

Definition group (cs : list (string * command)) : command :=
  Command [] (fun _ => mret PNone)
    (Some (list_to_map (prod_map str id <$> cs))).

Definition opt (n pn : string) : Param.t :=
  {| Param.name := str n; Param.payload_name := str pn;
     Param.is_flag := false; Param.multiple := false;
     Param.nargs := 1; Param.required := false |}.

Definition configurations_update_params : list Param.t :=
  [opt "configuration_id" "configuration_id";
   opt "layers_name" "layers-name";
   opt "layers_clone_url" "layers-cloneUrl";
   opt "layers_playbook" "layers-playbook";
   opt "layers_commit" "layers-commit"].

Definition sessions_create_params : list Param.t :=
  [opt "name" "name";
   opt "configuration_name" "configurationName";
   opt "target_definition" "target-definition";
   opt "target_groups_name" "target-groups-name";
   opt "target_groups_members" "target-groups-members";
   opt "tags" "tags"].

Definition components_update_params : list Param.t :=
  [opt "component_id" "component_id";
   opt "enabled" "enabled";
   opt "state_clone_url" "state-cloneUrl";
   opt "state_playbook" "state-playbook";
   opt "state_commit" "state-commit";
   opt "desired_config" "desiredConfig"].

(** The tree [generate] returns; the [patch] action of [configurations] is
    there when the vocabulary names it. *)
Definition generated_tree (swagger_opts : dict (dict pystr)) : command :=
  let vocabulary := default [] (get (str "vocabulary") swagger_opts) in
  let patch :=
    match get (str "patch") vocabulary with
    | Some _ =>
        [("patch", leaf ["configurations"; "patch"]
                     [opt "configuration_id" "configuration_id"])]
    | None => []
    end in
  group
    [("v2",
      group
        [("configurations",
          group
            ([("update", leaf ["configurations"; "update"]
                           configurations_update_params);
              ("list", leaf ["configurations"; "list"] [])] ++ patch));
         ("sessions",
          group
            [("create", leaf ["sessions"; "create"] sessions_create_params);
             ("update", leaf ["sessions"; "update"]
                          [opt "session_name" "session_name"]);
             ("list", leaf ["sessions"; "list"] [])]);
         ("components",
          group
            [("update", leaf ["components"; "update"]
                          components_update_params);
             ("list", leaf ["components"; "list"] [])])])].

Definition externals : Externals :=
  {| FROM_FILE_TAG := str "FROM_FILE_TAG";
     json_loads := JSON.loads;
     generate := generated_tree |}.

(** The text [{"layers":[]}]. *)
Definition layers_json : pystr :=
  str "{" ++ [dquote] ++ str "layers" ++ [dquote] ++ str ":[]}".

(** A world with one file, [cfg.json], holding [text]; nothing called yet. *)
Definition world_with (text : pystr) : world :=
  {| files := {[ str "cfg.json" := text ]}; calls := [] |}.

Definition update_callback : pycallable :=
  generated [str "configurations"; str "update"] answer_none.

Definition patch_callback : pycallable :=
  generated [str "configurations"; str "patch"] answer_none.

Definition func : pycallable :=
  generated [str "components"; str "update"] answer_none.

Definition create_callback : pycallable :=
  generated [str "sessions"; str "create"] answer_none.

Definition arg (n : string) (v : pyval) : opt_value :=
  {| name := str n; value := v |}.

End Example.

(** ** A setting in which the import fails

    The generated tree of the concrete setting without its
    [sessions update] command. *)

Module Missing.

Definition without_sessions_update (tree : command) : command :=
  match
    (v ← subcommand CURRENT_VERSION tree;
     sessions ← subcommand (str "sessions") v;
     cs ← commands sessions;
     v ← set_subcommand (str "sessions")
           (set_commands (delete (str "update") cs) sessions) v;
     set_subcommand CURRENT_VERSION v tree)
  with
  | Ok tree' => tree'
  | Raise _ => tree
  end.

Definition externals : Externals :=
  {| FROM_FILE_TAG := str "FROM_FILE_TAG";
     json_loads := JSON.loads;
     generate :=
       fun swagger_opts =>
         without_sessions_update (Example.generated_tree swagger_opts) |}.

End Missing.


(** ** Vocabulary of the statements *)

(** The values, in the order of [kw], of the options that carry the payload
    name [n] and a value other than [None]. *)
Definition supplied (n : pystr) (kw : kwargs) : list pyval :=
  omap
    (fun '(_, v) =>
       if bool_decide (name v = n) && negb (is_None (value v))
       then Some (value v) else None)
    kw.

(** The keyword arguments a payload shim hands on: [kw] with the payload
    stored under [FROM_FILE_TAG]. *)
Definition with_payload `{E : Externals} (payload : pyval) (kw : kwargs)
  : kwargs :=
  set FROM_FILE_TAG {| name := FROM_FILE_TAG; value := payload |} kw.

(** The message of the usage error of [configurations update]. *)
Definition usage_error : exn :=
  Exception (str "Either --file or --update-branches must be set for updates").

(** The generated command at [resource action] of a tree. *)
Definition action (resource act : pystr) (tree : command) : result command :=
  r ← subcommand resource tree; subcommand act r.

(** What the module body needs of the two trees it has generated. *)
Definition generated_as_expected `{E : Externals} : Prop :=
  ∃ main tmp : command,
    select_version (generate SWAGGER_OPTS) = Ok main
    ∧ select_version
        (generate [(str "vocabulary", [(str "patch", str "patch")])])
      = Ok tmp
    ∧ (∃ c, action (str "configurations") (str "update") tmp = Ok c)
    ∧ (∃ c, action (str "configurations") (str "patch") tmp = Ok c)
    ∧ (∃ r cs, subcommand (str "configurations") main = Ok r
               ∧ commands r = Ok cs)
    ∧ (∃ c, action (str "sessions") (str "create") main = Ok c)
    ∧ (∃ c, action (str "sessions") (str "update") main = Ok c)
    ∧ (∃ c, action (str "components") (str "update") main = Ok c).

(** ** Vocabulary of the further statements *)

(** The number of commas of a text. *)
Definition commas (text : pystr) : nat :=
  length (filter (fun c => c = comma) (text : list char)).

(** A member name that [_targets_callback] leaves as it is: no comma in
    it, no whitespace at either end. *)
Definition clean_member (m : pystr) : Prop :=
  (comma ∉ m) ∧ (∀ c, head m = Some c ∨ last m = Some c → isspace c = false).

(** [clean_member], decided. *)
Definition is_clean (m : pystr) : bool :=
  bool_decide (comma ∉ m)
  && match head m with Some c => negb (isspace c) | None => true end
  && match last m with Some c => negb (isspace c) | None => true end.

(** The record [{"name": group, "members": members}]. *)
Definition group_record (group : pystr) (members : list pystr) : pyval :=
  PDict [(str "name", PStr group); (str "members", PList (PStr <$> members))].

(** A generated option that [create_cmd_params] keeps. *)
Definition kept_param (p : Param.t) : Prop :=
  Param.payload_name p ∉ [GROUP_MEMBERS_PAYLOAD; GROUP_NAME_PAYLOAD].

(** An option that is not the [--target-group] option. *)
Definition other_param (p : Param.t) : Prop :=
  Param.payload_name p ≠ GROUPS_PAYLOAD.

(** An option that is not scoped to the prefix, such as [layers_]. *)
Definition unscoped (prefix : pystr) (p : Param.t) : Prop :=
  startswith (Param.name p) prefix = false.

#[global] Instance kept_param_dec (p : Param.t) : Decision (kept_param p).
Proof. unfold kept_param. apply _. Defined.

#[global] Instance other_param_dec (p : Param.t) : Decision (other_param p).
Proof. unfold other_param. apply _. Defined.

#[global] Instance unscoped_dec (prefix : pystr) (p : Param.t) :
  Decision (unscoped prefix p).
Proof. unfold unscoped. apply _. Defined.


(** * Properties *)

(** ** Strings *)

Lemma split_nonempty (sep : char) (s : pystr) : split sep s ≠ [].
Proof.
  induction s as [|c s IH]; simpl; [done|].
  destruct (c =? sep)%N; [done|].
  by destruct (split sep s).
Qed.

(** Joining the tokens of a split with the separator gives the text back. *)
Lemma join_split (sep : char) (s : pystr) : join sep (split sep s) = s.
Proof.
  induction s as [|c s IH]; simpl; [done|].
  destruct (N.eqb_spec c sep) as [->|Hne].
  - pose proof (split_nonempty sep s) as Hn.
    simpl. destruct (split sep s) as [|tok toks]; [done|].
    by rewrite IH.
  - pose proof (split_nonempty sep s) as Hn.
    destruct (split sep s) as [|tok toks]; [done|].
    simpl in *. destruct toks; simpl in *; by rewrite <- IH.
Qed.

(** No token of a split holds the separator. *)
Lemma split_no_sep (sep : char) (s : pystr) :
  Forall (fun tok => sep ∉ tok) (split sep s).
Proof.
  induction s as [|c s IH]; simpl.
  - repeat constructor. apply not_elem_of_nil.
  - destruct (N.eqb_spec c sep) as [->|Hne].
    + constructor; [apply not_elem_of_nil | done].
    + destruct (split sep s) as [|tok toks].
      * repeat constructor. rewrite list_elem_of_singleton. congruence.
      * inversion_clear IH as [|? ? Htok Htoks]. constructor; [|done].
        rewrite not_elem_of_cons. split; [congruence | done].
Qed.

(** The split is the only such list of tokens. *)
Lemma split_unique (sep : char) (toks : list pystr) :
  toks ≠ [] → Forall (fun tok => sep ∉ tok) toks →
  split sep (join sep toks) = toks.
Proof.
  induction toks as [|tok toks IH]; [done|].
  intros _ Hall. inversion_clear Hall as [|? ? Htok Htoks].
  destruct toks as [|tok' toks].
  - simpl. clear IH Htoks. induction tok as [|c tok IHt]; simpl; [done|].
    apply not_elem_of_cons in Htok as [Hc Htok].
    destruct (N.eqb_spec c sep) as [->|_]; [done|].
    by rewrite IHt.
  - specialize (IH ltac:(done) Htoks).
    change (join sep (tok :: tok' :: toks))
      with (tok ++ sep :: join sep (tok' :: toks)).
    remember (join sep (tok' :: toks)) as rest eqn:Hrest. clear Hrest.
    remember (tok' :: toks) as tail eqn:Htail. clear Htail Htoks.
    induction tok as [|c tok IHt]; simpl.
    + rewrite N.eqb_refl. by rewrite IH.
    + apply not_elem_of_cons in Htok as [Hc Htok].
      destruct (N.eqb_spec c sep) as [->|_]; [done|].
      by rewrite (IHt Htok).
Qed.

Lemma lstrip_decompose (s : pystr) :
  ∃ l, s = l ++ lstrip s ∧ Forall (fun c => isspace c = true) l.
Proof.
  induction s as [|c s (l & Hs & Hl)]; simpl.
  - by exists [].
  - destruct (isspace c) eqn:Hc.
    + exists (c :: l). split; [by rewrite <- app_comm_cons, <- Hs|].
      by constructor.
    + by exists [].
Qed.

Lemma lstrip_head (s : pystr) (c : char) :
  head (lstrip s) = Some c → isspace c = false.
Proof.
  induction s as [|c' s IH]; simpl; [done|].
  destruct (isspace c') eqn:Hc; [done|].
  simpl. by intros [= <-].
Qed.

Lemma rstrip_decompose (s : pystr) :
  ∃ r, s = rstrip s ++ r ∧ Forall (fun c => isspace c = true) r.
Proof.
  unfold rstrip. destruct (lstrip_decompose (reverse s)) as (l & Hs & Hl).
  exists (reverse l). split.
  - rewrite <- reverse_app, <- Hs. by rewrite reverse_involutive.
  - by apply Forall_reverse.
Qed.

Lemma rstrip_last (s : pystr) (c : char) :
  last (rstrip s) = Some c → isspace c = false.
Proof. unfold rstrip. rewrite last_reverse. apply lstrip_head. Qed.

(** [strip] removes whitespace and nothing else: what it drops on either
    side is whitespace throughout. *)
Lemma strip_decompose (s : pystr) :
  ∃ l r, s = l ++ strip s ++ r
         ∧ Forall (fun c => isspace c = true) l
         ∧ Forall (fun c => isspace c = true) r.
Proof.
  unfold strip.
  destruct (lstrip_decompose s) as (l & Hs & Hl).
  destruct (rstrip_decompose (lstrip s)) as (r & Hr & Hrs).
  exists l, r. split; [|done]. by rewrite <- Hr.
Qed.

(** What [strip] returns neither starts nor ends with whitespace. *)
Lemma strip_ends (s : pystr) (c : char) :
  head (strip s) = Some c ∨ last (strip s) = Some c → isspace c = false.
Proof.
  intros [Hh|Hl]; [|by eapply rstrip_last].
  unfold strip in Hh.
  destruct (rstrip_decompose (lstrip s)) as (r & Hr & _).
  apply (lstrip_head s). rewrite Hr.
  destruct (rstrip (lstrip s)); [done|]. done.
Qed.

(** A token without whitespace at its ends is left as it is. *)
Lemma strip_id (s : pystr) :
  (∀ c, head s = Some c ∨ last s = Some c → isspace c = false) →
  strip s = s.
Proof.
  intros Hs. unfold strip, rstrip.
  assert (Hl : ∀ t : pystr,
             (∀ c, head t = Some c → isspace c = false) → lstrip t = t).
  { intros [|c t] Ht; simpl; [done|]. by rewrite (Ht c). }
  rewrite (Hl s) by (intros c Hc; apply Hs; by left).
  rewrite Hl; [apply reverse_involutive|].
  intros c Hc. apply Hs. right. by rewrite <- head_reverse.
Qed.

(** ** Dictionaries *)

Lemma get_set_eq {V : Type} (k : pystr) (v : V) (d : dict V) :
  get k (set k v d) = Some v.
Proof.
  induction d as [|[k' v'] d IH]; simpl.
  - by rewrite decide_True.
  - destruct (decide (k' = k)) as [->|Hne]; simpl.
    + by rewrite decide_True.
    + by rewrite decide_False.
Qed.

Lemma get_set_ne {V : Type} (k k' : pystr) (v : V) (d : dict V) :
  k ≠ k' → get k' (set k v d) = get k' d.
Proof.
  intros Hne. induction d as [|[k0 v0] d IH]; simpl.
  - by rewrite decide_False.
  - destruct (decide (k0 = k)) as [->|Hk0]; simpl.
    + by rewrite !decide_False.
    + destruct (decide (k0 = k')); [done | apply IH].
Qed.

Lemma get_None_keys {V : Type} (k : pystr) (d : dict V) :
  get k d = None ↔ k ∉ keys d.
Proof.
  unfold keys. induction d as [|[k' v'] d IH]; simpl.
  - split; [intros _; apply not_elem_of_nil | done].
  - rewrite not_elem_of_cons. destruct (decide (k' = k)) as [->|Hne].
    + split; [done | by intros [? _]].
    + rewrite IH. split; [by intros ? | by intros [_ ?]].
Qed.

(** ** The monads *)

Lemma result_bind_Ok {A B : Type} (m : result A) (f : A → result B) (b : B) :
  m ≫= f = Ok b → ∃ a, m = Ok a ∧ f a = Ok b.
Proof. destruct m as [a|e]; simpl; [eauto | done]. Qed.

Lemma result_bind_eq {A B : Type} (m : result A) (f : A → result B) (a : A) :
  m = Ok a → m ≫= f = f a.
Proof. by intros ->. Qed.

Lemma getitem_Ok {V : Type} (k : pystr) (m : gmap pystr V) (v : V) :
  getitem k m = Ok v ↔ m !! k = Some v.
Proof. unfold getitem. destruct (m !! k); naive_solver. Qed.

Lemma delitem_Ok {V : Type} (k : pystr) (m m' : gmap pystr V) :
  delitem k m = Ok m' ↔ is_Some (m !! k) ∧ m' = delete k m.
Proof.
  unfold delitem. destruct (m !! k) eqn:Hk.
  - split; [intros [= <-]; eauto | by intros [_ ->]].
  - split; [done | by intros [[? ?] _]].
Qed.

Lemma commands_set_commands (cs : gmap pystr command) (cmd : command) :
  commands (set_commands cs cmd) = Ok cs.
Proof. by destruct cmd. Qed.

Lemma set_subcommand_Ok (k : pystr) (sub cmd cmd' : command) :
  set_subcommand k sub cmd = Ok cmd' →
  ∃ cs, commands cmd = Ok cs ∧ cmd' = set_commands (<[k := sub]> cs) cmd.
Proof.
  unfold set_subcommand. intros H.
  apply result_bind_Ok in H as (cs & Hcs & [= <-]). eauto.
Qed.

Lemma subcommand_Ok (k : pystr) (cmd sub : command) :
  subcommand k cmd = Ok sub ↔ ∃ cs, commands cmd = Ok cs ∧ cs !! k = Some sub.
Proof.
  unfold subcommand. split.
  - intros H. apply result_bind_Ok in H as (cs & Hcs & Hk).
    apply getitem_Ok in Hk. eauto.
  - intros (cs & -> & Hk). simpl. by apply getitem_Ok.
Qed.

(** Storing a sub-command leaves the others where they are. *)
Lemma subcommand_set_subcommand_ne (k k' : pystr) (sub cmd cmd' : command) :
  set_subcommand k sub cmd = Ok cmd' → k ≠ k' →
  subcommand k' cmd' = subcommand k' cmd.
Proof.
  intros H Hne. apply set_subcommand_Ok in H as (cs & Hcs & ->).
  unfold subcommand. rewrite commands_set_commands, Hcs. simpl.
  unfold getitem. by rewrite lookup_insert_ne.
Qed.

(** ** The payload comprehension *)

Lemma supplied_cons (n k : pystr) (v : opt_value) (kw : kwargs) :
  supplied n ((k, v) :: kw)
  = if bool_decide (name v = n) && negb (is_None (value v))
    then value v :: supplied n kw else supplied n kw.
Proof.
  unfold supplied. simpl.
  by destruct (bool_decide (name v = n) && negb (is_None (value v))).
Qed.

Lemma option_payload_fold (n : pystr) (kw : kwargs) (acc : dict pyval) :
  get n
    (fold_left
       (fun payload '(_, v) =>
          if is_None (value v) then payload
          else set (name v) (value v) payload)
       kw acc)
  = match last (supplied n kw) with
    | Some x => Some x
    | None => get n acc
    end.
Proof.
  revert acc. induction kw as [|[k v] kw IH]; intros acc; [done|].
  simpl fold_left. rewrite IH, supplied_cons.
  destruct (is_None (value v)) eqn:Hv.
  - by rewrite andb_false_r.
  - rewrite andb_true_r. case_bool_decide as Hn.
    + rewrite last_cons. subst n. rewrite get_set_eq.
      by destruct (last (supplied (name v) kw)).
    + by rewrite get_set_ne.
Qed.

(** What the comprehension stores under [n]: the value of the last option
    that carries the payload name [n] and was supplied; nothing when there
    is none. *)
Lemma option_payload_get (n : pystr) (kw : kwargs) :
  get n (option_payload kw) = last (supplied n kw).
Proof.
  unfold option_payload. rewrite option_payload_fold.
  by destruct (last (supplied n kw)).
Qed.

(** An option whose value is [None] contributes nothing. *)
Lemma supplied_nil (n : pystr) (kw : kwargs) :
  (∀ k v, (k, v) ∈ kw → name v = n → value v = PNone) ↔ supplied n kw = [].
Proof.
  induction kw as [|[k v] kw IH].
  - split; [done | intros _ ? ? Hin; by apply elem_of_nil in Hin].
  - rewrite supplied_cons. split.
    + intros H.
      assert (Hkw : supplied n kw = []).
      { apply IH. intros k' v' Hin Hn'.
        apply (H k' v'); [by apply list_elem_of_further | done]. }
      case_bool_decide as Hn; [|done].
      rewrite (H k v); [done | apply list_elem_of_here | done].
    + intros H k' v' Hin Hn. apply elem_of_cons in Hin as [[= -> ->]|Hin].
      * rewrite bool_decide_eq_true_2 in H by done.
        by destruct (value v).
      * destruct (bool_decide (name v = n) && negb (is_None (value v)));
          [done|]. by eapply IH.
Qed.

(** ** [configurations update] *)

Section Configurations.

Context `{E : Externals}.

Implicit Types update_callback patch_callback : pycallable.
Implicit Types configuration_id file update_branches : opt_value.
Implicit Types (kw : kwargs) (w : world).

(** With an empty [--file] the file is not opened at all. *)
Lemma shim_without_file update_callback patch_callback configuration_id
    file update_branches kw :
  truthy (value file) = false →
  create_configurations_shim update_callback patch_callback configuration_id
    file update_branches kw
  = if truthy (value update_branches)
    then patch_callback ((str "configuration_id", configuration_id) :: kw)
    else raise usage_error.
Proof. intros Hf. unfold create_configurations_shim. by rewrite Hf. Qed.

(** With a [--file] the shim reads, decodes and calls the update callback;
    the patch callback and [--update-branches] play no part. *)
Lemma shim_with_file update_callback patch_callback configuration_id
    file update_branches kw :
  truthy (value file) = true →
  create_configurations_shim update_callback patch_callback configuration_id
    file update_branches kw
  = (content ← open_read (value file);
     data ← lift (json_loads content);
     update_callback
       ((str "configuration_id", configuration_id) :: with_payload data kw)).
Proof. intros Hf. unfold create_configurations_shim. by rewrite Hf. Qed.

Lemma open_read_file (path content : pystr) w :
  files w !! path = Some content → open_read (PStr path) w = (Ok content, w).
Proof. intros Hp. unfold open_read. by rewrite Hp. Qed.

(** C3: when [--file] and [--update-branches] are both omitted (the value
    of each is [None], or [False] for the flag: anything falsy), the
    command fails with the usage error and performs no update.  The world
    comes back as it was, whatever the two callbacks are; for callbacks that
    log their calls, the log has not grown: neither was called and no
    payload was sent. *)
Theorem update_needs_file_or_branches update_callback patch_callback
    configuration_id file update_branches kw w :
  truthy (value file) = false →
  truthy (value update_branches) = false →
  create_configurations_shim update_callback patch_callback configuration_id
    file update_branches kw w
  = (Raise usage_error, w)
  ∧ ∀ l1 r1 l2 r2,
      calls
        (create_configurations_shim (generated l1 r1) (generated l2 r2)
           configuration_id file update_branches kw w).2
      = calls w.
Proof.
  intros Hf Hu. split.
  - rewrite shim_without_file by done. by rewrite Hu.
  - intros l1 r1 l2 r2. rewrite shim_without_file by done. by rewrite Hu.
Qed.

(** C5: with [--file] naming a file whose content is a valid JSON document,
    the shim decodes the content and calls the original update callback
    with exactly the decoded object as the payload: it is what the forwarded
    keyword arguments hold under [FROM_FILE_TAG], whatever the other
    options are. *)
Theorem file_is_the_payload update_callback patch_callback configuration_id
    file update_branches kw w (path content : pystr) (data : pyval) :
  value file = PStr path →
  path ≠ [] →
  files w !! path = Some content →
  json_loads content = Ok data →
  create_configurations_shim update_callback patch_callback configuration_id
    file update_branches kw w
  = update_callback
      ((str "configuration_id", configuration_id) :: with_payload data kw) w
  ∧ get FROM_FILE_TAG (with_payload data kw)
    = Some {| name := FROM_FILE_TAG; value := data |}.
Proof.
  intros Hfile Hpath Hcontent Hdata. split.
  - rewrite shim_with_file by (rewrite Hfile; by destruct path).
    rewrite Hfile. unfold mbind, M_bind.
    rewrite (open_read_file _ _ _ Hcontent). unfold lift. by rewrite Hdata.
  - unfold with_payload. apply get_set_eq.
Qed.

(** C1, as the code has it: when [--file] is supplied with a non-empty
    value and [--update-branches] is supplied as well, [--file] takes
    precedence.  The command behaves exactly as it does with that [--file]
    value and [--update-branches] not given, whatever the patch callback
    is: the patch path is not invoked.  When the named file exists and
    [json.loads] decodes its content, the outcome of the command is the
    outcome of the original update callback, called with the configuration
    id and the decoded content as the payload. *)
Theorem file_takes_precedence update_callback patch_callback configuration_id
    file update_branches kw w :
  truthy (value file) = true →
  truthy (value update_branches) = true →
  (∀ patch_callback',
     create_configurations_shim update_callback patch_callback
       configuration_id file update_branches kw w
     = create_configurations_shim update_callback patch_callback'
         configuration_id file
         {| name := name update_branches; value := PNone |} kw w)
  ∧ (∀ (path content : pystr) (data : pyval),
       value file = PStr path →
       files w !! path = Some content →
       json_loads content = Ok data →
       create_configurations_shim update_callback patch_callback
         configuration_id file update_branches kw w
       = update_callback
           ((str "configuration_id", configuration_id)
              :: with_payload data kw) w).
Proof.
  intros Hf Hu. split.
  - intros p'. by rewrite !shim_with_file.
  - intros path content data Hfile Hcontent Hdata.
    rewrite shim_with_file by done.
    rewrite Hfile. unfold mbind, M_bind.
    rewrite (open_read_file _ _ _ Hcontent). unfold lift. by rewrite Hdata.
Qed.

End Configurations.

(** ** [sessions create] *)

Section Sessions.

Context `{E : Externals}.

Implicit Types func : pycallable.
Implicit Types target_definition target_group : opt_value.
Implicit Types (kw : kwargs) (w : world).

(** The loop of [_targets_callback] is a map over the repetitions. *)
Lemma targets_loop (v : list (pystr * pystr)) (acc : list pyval) :
  fold_left
    (fun groups '(group, members) =>
       let members := strip <$> split comma members in
       groups ++ [PDict [(str "name", PStr group);
                         (str "members", PList (PStr <$> members))]])
    v acc
  = acc ++ ((fun '(group, members) =>
               PDict [(str "name", PStr group);
                      (str "members",
                       PList (PStr <$> (strip <$> split comma members)))])
              <$> v).
Proof.
  revert acc. induction v as [|[group members] v IH]; intros acc; simpl.
  - by rewrite app_nil_r.
  - rewrite IH. by rewrite <- app_assoc.
Qed.

(** C2: for every sequence [v] of repetitions of [--target-group], the
    callback builds one [{name, members}] record per repetition, in the
    order of the repetitions, with as members the stripped tokens of the
    split of the comma separated text.  Without a further callback it
    returns that list; with one, such as [_opt_callback], it hands that list
    on.  The tokens are those of the text (joined by commas they give it
    back, and none holds a comma), and stripping drops whitespace only and
    leaves none at either end.  [--target-group A m1,m2 --target-group B m3]
    parses to [[{"name":"A","members":["m1","m2"]},
    {"name":"B","members":["m3"]}]]. *)
Theorem targets_callback_parses (ctx : context) (param : Param.t)
    (v : list (pystr * pystr)) :
  let parsed :=
    PList ((fun '(group, members) =>
              PDict [(str "name", PStr group);
                     (str "members",
                      PList (PStr <$> (strip <$> split comma members)))])
             <$> v) in
  _targets_callback (R := opt_value) None ctx param v = inl parsed
  ∧ (∀ (R : Type) (cb : context → Param.t → pyval → R),
       _targets_callback (Some cb) ctx param v = inr (cb ctx param parsed))
  ∧ _targets_callback (Some _opt_callback) ctx param v
    = inr {| name := Param.payload_name param; value := parsed |}
  ∧ (∀ members : pystr,
       join comma (split comma members) = members
       ∧ Forall (fun tok => comma ∉ tok) (split comma members))
  ∧ (∀ tok : pystr,
       (∃ l r, tok = l ++ strip tok ++ r
               ∧ Forall (fun c => isspace c = true) l
               ∧ Forall (fun c => isspace c = true) r)
       ∧ ∀ c, head (strip tok) = Some c ∨ last (strip tok) = Some c →
              isspace c = false)
  ∧ _targets_callback (R := opt_value) None ctx param
      [(str "A", str "m1,m2"); (str "B", str "m3")]
    = inl (PList [PDict [(str "name", PStr (str "A"));
                         (str "members",
                          PList [PStr (str "m1"); PStr (str "m2")])];
                  PDict [(str "name", PStr (str "B"));
                         (str "members", PList [PStr (str "m3")])]])
  ∧ _targets_callback (R := opt_value) None ctx param
      [(str "A", str " m1 , m2 ")]
    = inl (PList [PDict [(str "name", PStr (str "A"));
                         (str "members",
                          PList [PStr (str "m1"); PStr (str "m2")])]]).
Proof.
  intros parsed.
  assert (Hloop : ∀ (R : Type) cb,
             @_targets_callback R cb ctx param v
             = match cb with
               | Some cb => inr (cb ctx param parsed)
               | None => inl parsed
               end).
  { intros R cb. unfold _targets_callback. by rewrite targets_loop. }
  split; [apply Hloop|].
  split; [intros R cb; apply Hloop|].
  split; [apply Hloop|].
  split; [intros members; split; [apply join_split | apply split_no_sep]|].
  split; [intros tok; split; [apply strip_decompose | apply strip_ends]|].
  split; reflexivity.
Qed.

(** What [create_sessions_shim] does, in one equation. *)
Lemma sessions_shim_forwards func target_definition target_group kw w :
  create_sessions_shim func target_definition target_group kw w
  = func
      (with_payload
         (PDict
            (set (str "target")
               (PDict [(str "definition", value target_definition);
                       (str "groups", value target_group)])
               (option_payload kw)))
         kw) w.
Proof. reflexivity. Qed.

(** The payload of [sessions create], key by key. *)
Lemma sessions_payload_get target_definition target_group kw (n : pystr) :
  get n
    (set (str "target")
       (PDict [(str "definition", value target_definition);
               (str "groups", value target_group)])
       (option_payload kw))
  = if decide (n = str "target")
    then Some (PDict [(str "definition", value target_definition);
                      (str "groups", value target_group)])
    else last (supplied n kw).
Proof.
  case_decide as Hn.
  - subst n. apply get_set_eq.
  - rewrite get_set_ne by done. apply option_payload_get.
Qed.

Lemma supplied_snoc (n k : pystr) (v : opt_value) (kw : kwargs) :
  name v = n → value v ≠ PNone →
  last (supplied n (kw ++ [(k, v)])) = Some (value v).
Proof.
  intros Hn Hv. unfold supplied. rewrite omap_app. simpl.
  rewrite bool_decide_eq_true_2 by done.
  destruct (value v); try done; simpl; apply last_snoc.
Qed.

(** C4, as the code has it: the payload [create_sessions_shim] assembles
    and hands to the original callback has, under [target], the object
    [{definition: <--target-definition>, groups: <--target-group list>}];
    under every other key [n] it has the value of the option of payload
    name [n] that was supplied (the last one, should several carry the
    name), and no entry when none was.  An option is skipped when its value
    is [None], and only then: a supplied value that is empty, such as the
    empty string, is kept.  For
    [--target-definition image --target-group g1 img123] the target is
    [{"definition":"image","groups":[{"name":"g1","members":["img123"]}]}]. *)
Theorem sessions_payload_shape func target_definition target_group kw w
    (ctx : context) (pd pg : Param.t) :
  (∃ payload : dict pyval,
     create_sessions_shim func target_definition target_group kw w
     = func (with_payload (PDict payload) kw) w
     ∧ get (str "target") payload
       = Some (PDict [(str "definition", value target_definition);
                      (str "groups", value target_group)])
     ∧ ∀ n, n ≠ str "target" → get n payload = last (supplied n kw))
  ∧ (∀ (k n : pystr) (empty : pyval),
       n ≠ str "target" → empty ≠ PNone →
       let kw' := kw ++ [(k, {| name := n; value := empty |})] in
       ∃ payload : dict pyval,
         create_sessions_shim func target_definition target_group kw' w
         = func (with_payload (PDict payload) kw') w
         ∧ get n payload = Some empty)
  ∧ match _targets_callback (Some _opt_callback) ctx pg
            [(str "g1", str "img123")] with
    | inr groups =>
        ∃ payload : dict pyval,
          create_sessions_shim func
            (_opt_callback ctx pd (PStr (str "image"))) groups kw w
          = func (with_payload (PDict payload) kw) w
          ∧ get (str "target") payload
            = Some (PDict
                      [(str "definition", PStr (str "image"));
                       (str "groups",
                        PList [PDict [(str "name", PStr (str "g1"));
                                      (str "members",
                                       PList [PStr (str "img123")])]])])
    | inl _ => False
    end.
Proof.
  split; [|split].
  - eexists. split; [apply sessions_shim_forwards|]. split.
    + rewrite sessions_payload_get. by rewrite decide_True.
    + intros n Hn. rewrite sessions_payload_get. by rewrite decide_False.
  - intros k n empty Hn Hempty kw'. eexists.
    split; [apply sessions_shim_forwards|].
    rewrite sessions_payload_get, decide_False by done.
    by apply supplied_snoc.
  - cbn [_targets_callback]. eexists.
    split; [apply sessions_shim_forwards|].
    rewrite sessions_payload_get. by rewrite decide_True.
Qed.

(** C9: the payload of [sessions create] always has the key [target].
    Without any [--target-group] the option parser hands the callback no
    pair, the parsed list is empty and so is [groups]; without
    [--target-definition], [definition] is [None].  Every other option is
    left out when its value is [None]. *)
Theorem sessions_target_always_present func target_definition target_group
    kw w (ctx : context) (pg : Param.t) (nm : pystr) :
  (∃ payload : dict pyval,
     create_sessions_shim func target_definition target_group kw w
     = func (with_payload (PDict payload) kw) w
     ∧ get (str "target") payload
       = Some (PDict [(str "definition", value target_definition);
                      (str "groups", value target_group)])
     ∧ ∀ n, n ≠ str "target" →
            (∀ k v, (k, v) ∈ kw → name v = n → value v = PNone) →
            get n payload = None)
  ∧ match _targets_callback (Some _opt_callback) ctx pg [] with
    | inr groups =>
        ∃ payload : dict pyval,
          create_sessions_shim func {| name := nm; value := PNone |} groups
            kw w
          = func (with_payload (PDict payload) kw) w
          ∧ get (str "target") payload
            = Some (PDict [(str "definition", PNone);
                           (str "groups", PList [])])
    | inl _ => False
    end.
Proof.
  split.
  - eexists. split; [apply sessions_shim_forwards|]. split.
    + rewrite sessions_payload_get. by rewrite decide_True.
    + intros n Hn Hnone. rewrite sessions_payload_get, decide_False by done.
      apply supplied_nil in Hnone. by rewrite Hnone.
  - cbn [_targets_callback fold_left]. eexists.
    split; [apply sessions_shim_forwards|].
    rewrite sessions_payload_get. by rewrite decide_True.
Qed.

End Sessions.

(** ** [components update] *)

Section Components.

Context `{E : Externals}.

Implicit Types func : pycallable.
Implicit Types component_id state : opt_value.
Implicit Types (kw : kwargs) (w : world).

(** Without a [--state] value the payload is the comprehension alone, and
    [json.loads] is not called. *)
Lemma components_shim_without_state func component_id state kw w :
  truthy (value state) = false →
  create_components_shim func component_id state kw w
  = func
      ((str "component_id", component_id)
         :: with_payload (PDict (option_payload kw)) kw) w.
Proof. intros Hs. unfold create_components_shim. by rewrite Hs. Qed.

(** With a [--state] value that decodes, the payload is the comprehension
    with the decoded value under [state]. *)
Lemma components_shim_with_state func component_id state kw w
    (parsed : pyval) :
  truthy (value state) = true →
  json_loads_value (value state) = Ok parsed →
  create_components_shim func component_id state kw w
  = func
      ((str "component_id", component_id)
         :: with_payload
              (PDict (set (str "state") parsed (option_payload kw))) kw) w.
Proof.
  intros Hs Hp. unfold create_components_shim. rewrite Hs.
  unfold mbind, M_bind, lift. by rewrite Hp.
Qed.

(** With a [--state] value that does not decode, the error comes out and
    nothing else happens. *)
Lemma components_shim_with_bad_state func component_id state kw w (e : exn) :
  truthy (value state) = true →
  json_loads_value (value state) = Raise e →
  create_components_shim func component_id state kw w = (Raise e, w).
Proof.
  intros Hs Hp. unfold create_components_shim. rewrite Hs.
  unfold mbind, M_bind, lift. by rewrite Hp.
Qed.

(** C7: with [--state '[]'] (the text [[]] decodes to the empty list) the
    payload handed to the original callback holds [state] mapped to the
    empty list; without [--state] it holds no [state] key, no other option
    carrying that payload name. *)
Theorem components_state_field func component_id kw w (nm : pystr) :
  json_loads (str "[]") = Ok (PList []) →
  (∃ payload : dict pyval,
     create_components_shim func component_id
       {| name := nm; value := PStr (str "[]") |} kw w
     = func
         ((str "component_id", component_id)
            :: with_payload (PDict payload) kw) w
     ∧ get (str "state") payload = Some (PList []))
  ∧ (supplied (str "state") kw = [] →
     ∃ payload : dict pyval,
       create_components_shim func component_id
         {| name := nm; value := PNone |} kw w
       = func
           ((str "component_id", component_id)
              :: with_payload (PDict payload) kw) w
       ∧ get (str "state") payload = None).
Proof.
  intros Hloads. split.
  - eexists. split; [by apply components_shim_with_state|].
    apply get_set_eq.
  - intros Hkw. eexists.
    split; [by apply components_shim_without_state|].
    by rewrite option_payload_get, Hkw.
Qed.

(** C10: with [--state] given the empty string the shim does exactly what
    it does without [--state]: whatever [json.loads] would do (it is not
    called), the original callback is called with the payload of the other
    options, which holds no [state] key, no other option carrying that
    payload name; the shim raises nothing of its own. *)
Theorem empty_state_is_no_state func component_id kw w (nm : pystr) :
  supplied (str "state") kw = [] →
  create_components_shim func component_id
    {| name := nm; value := PStr [] |} kw w
  = create_components_shim func component_id
      {| name := nm; value := PNone |} kw w
  ∧ (∀ loads : pystr → result pyval,
       create_components_shim
         (E := {| FROM_FILE_TAG := FROM_FILE_TAG;
                  json_loads := loads;
                  generate := generate |})
         func component_id {| name := nm; value := PStr [] |} kw w
       = create_components_shim func component_id
           {| name := nm; value := PStr [] |} kw w)
  ∧ ∃ payload : dict pyval,
      create_components_shim func component_id
        {| name := nm; value := PStr [] |} kw w
      = func
          ((str "component_id", component_id)
             :: with_payload (PDict payload) kw) w
      ∧ get (str "state") payload = None.
Proof.
  intros Hkw. split; [by rewrite !components_shim_without_state|].
  split.
  - intros loads. by rewrite !components_shim_without_state.
  - eexists. split; [by apply components_shim_without_state|].
    by rewrite option_payload_get, Hkw.
Qed.

(** C8, as the code has it: when the file named by a non-empty [--file]
    holds text that [json.loads] rejects, or a non-empty [--state] is such
    a text, the command fails with that very decode error and the
    invocation aborts; the world comes back as it was, whatever the
    callbacks are, so none was called: no payload was assembled or sent,
    nothing is partially applied. *)
Theorem malformed_json_aborts (update_callback patch_callback func : pycallable)
    (configuration_id file update_branches component_id state : opt_value)
    kw w (e : exn) :
  (∀ path content : pystr,
     value file = PStr path → path ≠ [] →
     files w !! path = Some content →
     json_loads content = Raise e →
     create_configurations_shim update_callback patch_callback
       configuration_id file update_branches kw w
     = (Raise e, w))
  ∧ (∀ text : pystr,
       value state = PStr text → text ≠ [] →
       json_loads text = Raise e →
       create_components_shim func component_id state kw w = (Raise e, w)).
Proof.
  split.
  - intros path content Hfile Hpath Hcontent He.
    rewrite shim_with_file by (rewrite Hfile; by destruct path).
    rewrite Hfile. unfold mbind, M_bind.
    rewrite (open_read_file _ _ _ Hcontent). unfold lift. by rewrite He.
  - intros text Hstate Htext He.
    apply components_shim_with_bad_state.
    + rewrite Hstate. by destruct text.
    + by rewrite Hstate.
Qed.

End Components.

(** ** The patched tree *)

Section Tree.

Context `{E : Externals}.

Lemma subcommand_set_subcommand_eq (k : pystr) (sub cmd cmd' : command) :
  set_subcommand k sub cmd = Ok cmd' → subcommand k cmd' = Ok sub.
Proof.
  intros H. apply set_subcommand_Ok in H as (cs & Hcs & ->).
  unfold subcommand. rewrite commands_set_commands. simpl.
  apply getitem_Ok, lookup_insert_eq.
Qed.

(** The configurations patch touches [configurations] only. *)
Lemma setup_configuration_keeps (cfs_cli cli' : command) (k : pystr) :
  setup_configuration_from_file cfs_cli = Ok cli' →
  k ≠ str "configurations" →
  subcommand k cli' = subcommand k cfs_cli.
Proof.
  unfold setup_configuration_from_file. intros H Hk.
  do 6 (apply result_bind_Ok in H as (? & _ & H); cbv zeta in H).
  by eapply subcommand_set_subcommand_ne.
Qed.

(** The components patch touches [components] only. *)
Lemma setup_component_keeps (cfs_cli cli' : command) (k : pystr) :
  setup_component_state cfs_cli = Ok cli' →
  k ≠ str "components" →
  subcommand k cli' = subcommand k cfs_cli.
Proof.
  unfold setup_component_state. intros H Hk.
  do 3 (apply result_bind_Ok in H as (? & _ & H); cbv zeta in H).
  by eapply subcommand_set_subcommand_ne.
Qed.

(** Storing [create] does not bring the deleted [update] back. *)
Lemma update_deleted (create : command) (cs : gmap pystr command) :
  <[str "create" := create]> (delete (str "update") cs) !! str "update" = None.
Proof. rewrite lookup_insert_ne by done. apply lookup_delete_eq. Qed.

(** C6: once the module body has run to its end, the [sessions] group of
    the tree it leaves has no [update] entry, so that looking the
    sub-action up fails; the generated tree, before the patches, had
    one. *)
Theorem sessions_update_removed (tree : command) :
  cli = Ok tree →
  (∃ (generated_cli sessions0 : command) (cs0 : gmap pystr command),
     select_version (generate SWAGGER_OPTS) = Ok generated_cli
     ∧ subcommand (str "sessions") generated_cli = Ok sessions0
     ∧ commands sessions0 = Ok cs0
     ∧ is_Some (cs0 !! str "update"))
  ∧ (∃ (sessions : command) (cs : gmap pystr command),
       subcommand (str "sessions") tree = Ok sessions
       ∧ commands sessions = Ok cs
       ∧ cs !! str "update" = None
       ∧ subcommand (str "update") sessions = Raise (KeyError (str "update"))).
Proof.
  unfold cli. intros H.
  apply result_bind_Ok in H as (cli0 & Hgen & H).
  apply result_bind_Ok in H as (cli1 & Hconf & H).
  apply result_bind_Ok in H as (sessions & Hsessions & H).
  apply result_bind_Ok in H as (CREATE_CMD & _ & H).
  apply result_bind_Ok in H as (cs & Hcs & H).
  apply result_bind_Ok in H as (cs' & Hdel & H). cbv zeta in H.
  apply result_bind_Ok in H as (cli2 & Hstore & H).
  apply delitem_Ok in Hdel as [Hupdate ->].
  split.
  - exists cli0, sessions, cs. repeat split; [done | | done | done].
    rewrite <- Hsessions. symmetry.
    by eapply setup_configuration_keeps.
  - eexists _, _. split; [|split; [apply commands_set_commands|]].
    + rewrite (setup_component_keeps _ _ _ H) by done.
      by eapply subcommand_set_subcommand_eq.
    + split; [apply update_deleted|].
      unfold subcommand. rewrite commands_set_commands. simpl.
      unfold getitem. by rewrite update_deleted.
Qed.

Lemma action_Ok (resource act : pystr) (tree c : command) :
  action resource act tree = Ok c →
  ∃ r, subcommand resource tree = Ok r ∧ subcommand act r = Ok c.
Proof. unfold action. intros H. by apply result_bind_Ok in H. Qed.

Lemma set_subcommand_completes (k : pystr) (sub cmd : command)
    (cs : gmap pystr command) :
  commands cmd = Ok cs →
  set_subcommand k sub cmd = Ok (set_commands (<[k := sub]> cs) cmd).
Proof. intros H. unfold set_subcommand. by rewrite H. Qed.

Lemma setup_configuration_completes (cfs_cli tmp r : command)
    (cs : gmap pystr command) :
  select_version (generate [(str "vocabulary", [(str "patch", str "patch")])])
  = Ok tmp →
  (∃ c, action (str "configurations") (str "update") tmp = Ok c) →
  (∃ c, action (str "configurations") (str "patch") tmp = Ok c) →
  subcommand (str "configurations") cfs_cli = Ok r →
  commands r = Ok cs →
  ∃ cli', setup_configuration_from_file cfs_cli = Ok cli'.
Proof.
  intros Htmp [update Hupdate] [patch Hpatch] Hr Hcs.
  apply action_Ok in Hupdate as (tconfs & Htconfs & Hupdate).
  apply action_Ok in Hpatch as (tconfs' & Htconfs' & Hpatch).
  assert (tconfs' = tconfs) as -> by congruence.
  apply subcommand_Ok in Hr as Hcli. destruct Hcli as (clis & Hclis & _).
  unfold setup_configuration_from_file.
  rewrite (result_bind_eq _ _ _ Htmp). cbv zeta.
  rewrite (result_bind_eq _ _ _ Htconfs).
  rewrite (result_bind_eq _ _ _ Hupdate).
  rewrite (result_bind_eq _ _ _ Hpatch).
  rewrite (result_bind_eq _ _ _ Hr).
  erewrite (result_bind_eq _ _ _ (set_subcommand_completes _ _ _ _ Hcs)).
  rewrite (set_subcommand_completes _ _ _ _ Hclis). eauto.
Qed.

Lemma setup_component_completes (cfs_cli : command) :
  (∃ c, action (str "components") (str "update") cfs_cli = Ok c) →
  ∃ cli', setup_component_state cfs_cli = Ok cli'.
Proof.
  intros [update Hupdate].
  apply action_Ok in Hupdate as (r & Hr & Hupdate).
  apply subcommand_Ok in Hr as Hcli. destruct Hcli as (clis & Hclis & _).
  apply subcommand_Ok in Hupdate as Hcs. destruct Hcs as (cs & Hcs & _).
  unfold setup_component_state.
  rewrite (result_bind_eq _ _ _ Hr).
  rewrite (result_bind_eq _ _ _ Hupdate). cbv zeta.
  erewrite (result_bind_eq _ _ _ (set_subcommand_completes _ _ _ _ Hcs)).
  rewrite (set_subcommand_completes _ _ _ _ Hclis). eauto.
Qed.

(** The module body runs to its end on generated trees that have the
    commands it patches. *)
Lemma cli_completes : generated_as_expected → ∃ tree, cli = Ok tree.
Proof.
  intros (main & tmp & Hmain & Htmp & Hupd & Hpat & (r & cs & Hr & Hcs)
          & [create Hcreate] & [update Hupdate] & Hcomp).
  destruct (setup_configuration_completes main tmp r cs)
    as [cli1 Hcli1]; try done.
  apply action_Ok in Hcreate as (sessions & Hsessions & Hcreate).
  apply action_Ok in Hupdate as (sessions' & Hsessions' & Hupdate).
  assert (sessions' = sessions) as -> by congruence.
  apply subcommand_Ok in Hupdate as (scs & Hscs & Hupdate).
  rewrite <- (setup_configuration_keeps _ _ (str "sessions") Hcli1)
    in Hsessions by done.
  apply subcommand_Ok in Hsessions as Hcs1.
  destruct Hcs1 as (cs1 & Hcs1 & _).
  unfold cli.
  rewrite (result_bind_eq _ _ _ Hmain).
  rewrite (result_bind_eq _ _ _ Hcli1).
  rewrite (result_bind_eq _ _ _ Hsessions).
  rewrite (result_bind_eq _ _ _ Hcreate).
  rewrite (result_bind_eq _ _ _ Hscs).
  assert (Hdel : delitem (str "update") scs = Ok (delete (str "update") scs))
    by (unfold delitem; by rewrite Hupdate).
  rewrite (result_bind_eq _ _ _ Hdel). cbv zeta.
  match goal with
  | |- context [set_subcommand ?k ?sub ?c] =>
      pose proof (set_subcommand_completes k sub c _ Hcs1) as Hstore
  end.
  rewrite (result_bind_eq _ _ _ Hstore).
  apply setup_component_completes.
  destruct Hcomp as [c Hc].
  apply action_Ok in Hc as (comps & Hcomps & Hc).
  exists c. unfold action.
  rewrite (subcommand_set_subcommand_ne _ _ _ _ _ Hstore) by done.
  rewrite (setup_configuration_keeps _ _ (str "components") Hcli1) by done.
  by rewrite Hcomps.
Qed.

Lemma callback_set_params (ps : list Param.t) (cmd : command) :
  callback (set_params ps cmd) = callback cmd.
Proof. by destruct cmd. Qed.

Lemma callback_set_callback (cb : pycallable) (cmd : command) :
  callback (set_callback cb cmd) = cb.
Proof. by destruct cmd. Qed.

Lemma callback_core_option flag pn is_flag multiple nargs required
    (cmd : command) :
  callback (core_option flag pn is_flag multiple nargs required cmd)
  = callback cmd.
Proof. unfold core_option. apply callback_set_params. Qed.

Lemma action_keeps (resource act : pystr) (tree tree' : command) :
  subcommand resource tree' = subcommand resource tree →
  action resource act tree' = action resource act tree.
Proof. unfold action. by intros ->. Qed.

(** Storing [sub] at [resource act]. *)
Lemma action_stored (resource act : pystr) (sub r r' tree tree' : command) :
  set_subcommand act sub r = Ok r' →
  set_subcommand resource r' tree = Ok tree' →
  action resource act tree' = Ok sub.
Proof.
  intros Hr Htree. unfold action.
  rewrite (subcommand_set_subcommand_eq _ _ _ _ Htree). simpl.
  by eapply subcommand_set_subcommand_eq.
Qed.

(** What the configurations patch leaves at [configurations update]: the
    shim around the callbacks that were generated for [update] and
    [patch]. *)
Lemma setup_configuration_callback (cfs_cli cli' : command) :
  setup_configuration_from_file cfs_cli = Ok cli' →
  ∃ tmp update patch patched : command,
    select_version
      (generate [(str "vocabulary", [(str "patch", str "patch")])])
    = Ok tmp
    ∧ action (str "configurations") (str "update") tmp = Ok update
    ∧ action (str "configurations") (str "patch") tmp = Ok patch
    ∧ action (str "configurations") (str "update") cli' = Ok patched
    ∧ callback patched
      = by_keyword3 (str "configuration_id") (str "file")
          (str "update_branches")
          (create_configurations_shim (callback update) (callback patch)).
Proof.
  unfold setup_configuration_from_file. intros H.
  apply result_bind_Ok in H as (tmp & Htmp & H). cbv zeta in H.
  apply result_bind_Ok in H as (confs & Hconfs & H).
  apply result_bind_Ok in H as (update & Hupdate & H).
  apply result_bind_Ok in H as (patch & Hpatch & H).
  apply result_bind_Ok in H as (r & Hr & H).
  apply result_bind_Ok in H as (r' & Hr' & H).
  exists tmp, update, patch. eexists. split; [done|].
  unfold action at 1 2. rewrite Hconfs. simpl.
  split; [done|]. split; [done|].
  split; [by eapply action_stored|].
  rewrite callback_set_callback.
  by rewrite callback_set_params, !callback_core_option.
Qed.

(** What the components patch leaves at [components update]. *)
Lemma setup_component_callback (cfs_cli cli' : command) :
  setup_component_state cfs_cli = Ok cli' →
  ∃ update patched : command,
    action (str "components") (str "update") cfs_cli = Ok update
    ∧ action (str "components") (str "update") cli' = Ok patched
    ∧ callback patched
      = by_keyword2 (str "component_id") (str "state")
          (create_components_shim (callback update)).
Proof.
  unfold setup_component_state. intros H.
  apply result_bind_Ok in H as (r & Hr & H).
  apply result_bind_Ok in H as (update & Hupdate & H). cbv zeta in H.
  apply result_bind_Ok in H as (r' & Hr' & H).
  exists update. eexists.
  unfold action at 1. rewrite Hr. simpl. split; [done|].
  split; [by eapply action_stored|].
  rewrite callback_set_callback.
  by rewrite callback_set_params, callback_core_option.
Qed.

(** The three patched commands of the tree the module leaves call the
    shims, each around the callback the generator made for the command (and,
    for [configurations update], the callback of [configurations patch]):
    the statements on the shims are statements on the patched commands. *)
Lemma patched_callbacks (tree : command) :
  cli = Ok tree →
  ∃ main tmp update patch create component : command,
    select_version (generate SWAGGER_OPTS) = Ok main
    ∧ select_version
        (generate [(str "vocabulary", [(str "patch", str "patch")])])
      = Ok tmp
    ∧ action (str "configurations") (str "update") tmp = Ok update
    ∧ action (str "configurations") (str "patch") tmp = Ok patch
    ∧ action (str "sessions") (str "create") main = Ok create
    ∧ action (str "components") (str "update") main = Ok component
    ∧ (∃ c, action (str "configurations") (str "update") tree = Ok c
            ∧ callback c
              = by_keyword3 (str "configuration_id") (str "file")
                  (str "update_branches")
                  (create_configurations_shim (callback update)
                     (callback patch)))
    ∧ (∃ c, action (str "sessions") (str "create") tree = Ok c
            ∧ callback c
              = by_keyword2 (str "target_definition") (str "target_group")
                  (create_sessions_shim (callback create)))
    ∧ (∃ c, action (str "components") (str "update") tree = Ok c
            ∧ callback c
              = by_keyword2 (str "component_id") (str "state")
                  (create_components_shim (callback component))).
Proof.
  unfold cli. intros H.
  apply result_bind_Ok in H as (cli0 & Hgen & H).
  apply result_bind_Ok in H as (cli1 & Hconf & H).
  apply result_bind_Ok in H as (sessions & Hsessions & H).
  apply result_bind_Ok in H as (CREATE_CMD & Hcreate & H).
  apply result_bind_Ok in H as (cs & Hcs & H).
  apply result_bind_Ok in H as (cs' & Hdel & H). cbv zeta in H.
  apply result_bind_Ok in H as (cli2 & Hstore & H).
  destruct (setup_configuration_callback _ _ Hconf)
    as (tmp & update & patch & c1 & Htmp & Hupdate & Hpatch & Hc1 & Hcb1).
  destruct (setup_component_callback _ _ H)
    as (component & c3 & Hcomponent & Hc3 & Hcb3).
  exists cli0, tmp, update, patch, CREATE_CMD, component.
  split; [done|]. split; [done|]. split; [done|]. split; [done|].
  assert (Hkeep01 : ∀ r a, r ≠ str "configurations" →
            action r a cli1 = action r a cli0).
  { intros r a Hr. apply action_keeps.
    by apply (setup_configuration_keeps _ _ _ Hconf). }
  assert (Hkeep12 : ∀ r a, r ≠ str "sessions" →
            action r a cli2 = action r a cli1).
  { intros r a Hr. apply action_keeps.
    by apply (subcommand_set_subcommand_ne _ _ _ _ _ Hstore). }
  assert (Hkeep23 : ∀ r a, r ≠ str "components" →
            action r a tree = action r a cli2).
  { intros r a Hr. apply action_keeps.
    by apply (setup_component_keeps _ _ _ H). }
  split.
  { rewrite <- Hkeep01 by done. unfold action. by rewrite Hsessions. }
  split.
  { by rewrite <- Hkeep01, <- Hkeep12. }
  split.
  { exists c1. split; [|done]. by rewrite Hkeep23, Hkeep12. }
  split; [|by exists c3].
  eexists. split.
  - rewrite Hkeep23 by done. unfold action.
    rewrite (subcommand_set_subcommand_eq _ _ _ _ Hstore). simpl.
    unfold subcommand. rewrite commands_set_commands. simpl.
    apply getitem_Ok, lookup_insert_eq.
  - rewrite callback_set_callback.
    by rewrite callback_set_params, callback_core_option.
Qed.

(** A call with keyword arguments reaches the function behind
    [by_keyword2] with the two named arguments taken out of them. *)
Lemma by_keyword2_call (k1 k2 : pystr)
    (f : opt_value → opt_value → kwargs → M pyval)
    (a1 a2 : opt_value) (args : kwargs) (w : world) :
  get k1 args = Some a1 →
  get k2 (remove k1 args) = Some a2 →
  by_keyword2 k1 k2 f args w = f a1 a2 (remove k2 (remove k1 args)) w.
Proof.
  intros H1 H2. unfold by_keyword2, pop_arg, mbind, M_bind.
  rewrite H1. simpl. by rewrite H2.
Qed.

Lemma by_keyword3_call (k1 k2 k3 : pystr)
    (f : opt_value → opt_value → opt_value → kwargs → M pyval)
    (a1 a2 a3 : opt_value) (args : kwargs) (w : world) :
  get k1 args = Some a1 →
  get k2 (remove k1 args) = Some a2 →
  get k3 (remove k2 (remove k1 args)) = Some a3 →
  by_keyword3 k1 k2 k3 f args w
  = f a1 a2 a3 (remove k3 (remove k2 (remove k1 args))) w.
Proof.
  intros H1 H2 H3. unfold by_keyword3, pop_arg, mbind, M_bind.
  rewrite H1. simpl. rewrite H2. simpl. by rewrite H3.
Qed.

(** X15: the usage error, on the patched command itself: called without a
    [file] and without [update_branches] value, the [configurations update]
    command of the patched tree raises it and leaves the world alone. *)
Lemma patched_update_needs_file_or_branches (tree : command)
    (args : kwargs) (configuration_id file update_branches : opt_value)
    (w : world) :
  cli = Ok tree →
  get (str "configuration_id") args = Some configuration_id →
  get (str "file") (remove (str "configuration_id") args) = Some file →
  get (str "update_branches")
    (remove (str "file") (remove (str "configuration_id") args))
  = Some update_branches →
  truthy (value file) = false →
  truthy (value update_branches) = false →
  ∃ c, action (str "configurations") (str "update") tree = Ok c
       ∧ callback c args w = (Raise usage_error, w).
Proof.
  intros Hcli Hid Hfile Hub Hf Hu.
  destruct (patched_callbacks tree Hcli)
    as (main & tmp & update & patch & create & component & _ & _ & _ & _
        & _ & _ & (c & Hc & Hcb) & _).
  exists c. split; [done|]. rewrite Hcb.
  rewrite (by_keyword3_call _ _ _ _ _ _ _ _ _ Hid Hfile Hub).
  rewrite shim_without_file by done. by rewrite Hu.
Qed.

End Tree.

(** ** The statements at work in the concrete setting *)

(** C3 at work: no [--file], no [--update-branches]. *)
Lemma update_needs_file_or_branches_witness :
  let w := Example.world_with Example.layers_json in
  let configuration_id := Example.arg "configuration_id" (PStr (str "c1")) in
  let file := Example.arg "file" PNone in
  let update_branches := Example.arg "update_branches" (PBool false) in
  create_configurations_shim (E := Example.externals)
    Example.update_callback Example.patch_callback
    configuration_id file update_branches [] w
  = (Raise usage_error, w)
  ∧ ∀ l1 r1 l2 r2,
      calls
        (create_configurations_shim (E := Example.externals)
           (generated l1 r1) (generated l2 r2)
           configuration_id file update_branches [] w).2
      = calls w.
Proof.
  intros w configuration_id file update_branches.
  apply (update_needs_file_or_branches (E := Example.externals));
    reflexivity.
Defined.

(** C5 at work: [cfg.json] holds [{"layers":[]}]. *)
Lemma file_is_the_payload_witness :
  let w := Example.world_with Example.layers_json in
  let configuration_id := Example.arg "configuration_id" (PStr (str "c1")) in
  let file := Example.arg "file" (PStr (str "cfg.json")) in
  let update_branches := Example.arg "update_branches" (PBool false) in
  let kw := [(str "name", Example.arg "name" (PStr (str "n1")))] in
  let data := PDict [(str "layers", PList [])] in
  JSON.loads Example.layers_json = Ok data
  ∧ create_configurations_shim (E := Example.externals)
      Example.update_callback Example.patch_callback
      configuration_id file update_branches kw w
    = Example.update_callback
        ((str "configuration_id", configuration_id)
           :: with_payload (E := Example.externals) data kw) w
  ∧ get (str "FROM_FILE_TAG") (with_payload (E := Example.externals) data kw)
    = Some {| name := str "FROM_FILE_TAG"; value := data |}.
Proof.
  intros w configuration_id file update_branches kw data.
  split; [by vm_compute|].
  apply (file_is_the_payload (E := Example.externals) _ _ _ file _ _ w
           (str "cfg.json") Example.layers_json data);
    [reflexivity | discriminate | by vm_compute | by vm_compute].
Defined.

(** C1 refuted as stated: with [--file cfg.json] and [--update-branches]
    both supplied, the command raises no usage error; it decodes the file
    and calls the update callback, as the log of calls shows. *)
Lemma both_supplied_runs_update :
  let w := Example.world_with Example.layers_json in
  let configuration_id := Example.arg "configuration_id" (PStr (str "c1")) in
  let file := Example.arg "file" (PStr (str "cfg.json")) in
  let update_branches := Example.arg "update_branches" (PBool true) in
  truthy (value file) = true
  ∧ truthy (value update_branches) = true
  ∧ create_configurations_shim (E := Example.externals)
      Example.update_callback Example.patch_callback
      configuration_id file update_branches [] w
    = (Ok PNone,
       {| files := files w;
          calls :=
            [([str "configurations"; str "update"],
              [(str "configuration_id", configuration_id);
               (str "FROM_FILE_TAG",
                {| name := str "FROM_FILE_TAG";
                   value := PDict [(str "layers", PList [])] |})])] |}).
Proof. by vm_compute. Qed.

(** C1, as the code has it, at work. *)
Lemma file_takes_precedence_witness :
  let w := Example.world_with Example.layers_json in
  let configuration_id := Example.arg "configuration_id" (PStr (str "c1")) in
  let file := Example.arg "file" (PStr (str "cfg.json")) in
  let update_branches := Example.arg "update_branches" (PBool true) in
  (∀ patch_callback',
     create_configurations_shim (E := Example.externals)
       Example.update_callback Example.patch_callback
       configuration_id file update_branches [] w
     = create_configurations_shim (E := Example.externals)
         Example.update_callback patch_callback'
         configuration_id file
         {| name := name update_branches; value := PNone |} [] w)
  ∧ create_configurations_shim (E := Example.externals)
      Example.update_callback Example.patch_callback
      configuration_id file update_branches [] w
    = Example.update_callback
        ((str "configuration_id", configuration_id)
           :: with_payload (E := Example.externals)
                (PDict [(str "layers", PList [])]) []) w.
Proof.
  intros w configuration_id file update_branches.
  destruct (file_takes_precedence (E := Example.externals)
              Example.update_callback Example.patch_callback
              configuration_id file update_branches [] w
              eq_refl eq_refl) as [Hsame Hforward].
  split; [exact Hsame|].
  apply (Hforward (str "cfg.json") Example.layers_json);
    [reflexivity | by vm_compute | by vm_compute].
Defined.

(** C4 refuted as stated: an option supplied with an empty value, here
    [--name ''], is not skipped: the payload has [name] mapped to the empty
    string. *)
Lemma empty_value_is_kept :
  let w := {| files := ∅; calls := [] |} in
  let kw := [(str "name", Example.arg "name" (PStr []))] in
  let target :=
    PDict [(str "definition", PStr (str "image")); (str "groups", PList [])] in
  create_sessions_shim (E := Example.externals) Example.create_callback
    (Example.arg "target-definition" (PStr (str "image")))
    (Example.arg "target-group" (PList [])) kw w
  = (Ok PNone,
     {| files := ∅;
        calls :=
          [([str "sessions"; str "create"],
            kw ++ [(str "FROM_FILE_TAG",
                    {| name := str "FROM_FILE_TAG";
                       value := PDict [(str "name", PStr []);
                                       (str "target", target)] |})])] |}).
Proof. by vm_compute. Qed.

(** The generated tree of the concrete setting has what the module body
    needs. *)
Lemma example_generated_as_expected :
  generated_as_expected (E := Example.externals).
Proof.
  unfold generated_as_expected. eexists _, _.
  split; [reflexivity|]. split; [reflexivity|].
  split; [eexists; reflexivity|]. split; [eexists; reflexivity|].
  split; [eexists _, _; split; reflexivity|].
  split; [eexists; reflexivity|]. split; eexists; reflexivity.
Qed.

(** C6 at work: the module body runs to its end on the generated tree of
    the concrete setting, and the tree it leaves has no [sessions update]. *)
Lemma sessions_update_removed_witness :
  ∃ tree : command,
    cli (E := Example.externals) = Ok tree
    ∧ ∃ (sessions : command) (cs : gmap pystr command),
        subcommand (str "sessions") tree = Ok sessions
        ∧ commands sessions = Ok cs
        ∧ cs !! str "update" = None
        ∧ subcommand (str "update") sessions
          = Raise (KeyError (str "update")).
Proof.
  destruct (cli_completes (E := Example.externals)
              example_generated_as_expected) as [tree Htree].
  exists tree. split; [exact Htree|].
  exact (proj2 (sessions_update_removed (E := Example.externals) _ Htree)).
Defined.

(** C7 at work. *)
Lemma components_state_field_witness :
  let w := {| files := ∅; calls := [] |} in
  let component_id := Example.arg "component_id" (PStr (str "x1")) in
  let kw := [(str "enabled", Example.arg "enabled" (PBool true));
             (str "desired_config", Example.arg "desiredConfig" PNone)] in
  JSON.loads (str "[]") = Ok (PList [])
  ∧ supplied (str "state") kw = []
  ∧ (∃ payload : dict pyval,
       create_components_shim (E := Example.externals) Example.func
         component_id (Example.arg "state" (PStr (str "[]"))) kw w
       = Example.func
           ((str "component_id", component_id)
              :: with_payload (E := Example.externals) (PDict payload) kw) w
       ∧ get (str "state") payload = Some (PList []))
  ∧ (∃ payload : dict pyval,
       create_components_shim (E := Example.externals) Example.func
         component_id (Example.arg "state" PNone) kw w
       = Example.func
           ((str "component_id", component_id)
              :: with_payload (E := Example.externals) (PDict payload) kw) w
       ∧ get (str "state") payload = None).
Proof.
  intros w component_id kw.
  assert (Hloads : JSON.loads (str "[]") = Ok (PList [])) by (by vm_compute).
  assert (Hkw : supplied (str "state") kw = []) by reflexivity.
  destruct (components_state_field (E := Example.externals) Example.func
              component_id kw w (str "state") Hloads) as [Hset Hunset].
  split; [exact Hloads|]. split; [exact Hkw|].
  split; [exact Hset | exact (Hunset Hkw)].
Defined.

(** C10 at work. *)
Lemma empty_state_is_no_state_witness :
  let w := {| files := ∅; calls := [] |} in
  let component_id := Example.arg "component_id" (PStr (str "x1")) in
  let kw := [(str "enabled", Example.arg "enabled" (PBool true))] in
  supplied (str "state") kw = []
  ∧ create_components_shim (E := Example.externals) Example.func
      component_id (Example.arg "state" (PStr [])) kw w
    = create_components_shim (E := Example.externals) Example.func
        component_id (Example.arg "state" PNone) kw w.
Proof.
  intros w component_id kw.
  assert (Hkw : supplied (str "state") kw = []) by reflexivity.
  split; [exact Hkw|].
  exact (proj1 (empty_state_is_no_state (E := Example.externals)
                  Example.func component_id kw w (str "state") Hkw)).
Defined.

(** C8 refuted as stated: the empty string is not valid JSON, yet with
    [--state] given the empty string nothing fails: the original callback
    is called, with a payload. *)
Lemma empty_state_is_not_decoded :
  let w := {| files := ∅; calls := [] |} in
  let component_id := Example.arg "component_id" (PStr (str "x1")) in
  let state := Example.arg "state" (PStr []) in
  JSON.loads [] = Raise (JSONDecodeError (str "Expecting value"))
  ∧ create_components_shim (E := Example.externals) Example.func
      component_id state [] w
    = (Ok PNone,
       {| files := ∅;
          calls :=
            [([str "components"; str "update"],
              [(str "component_id", component_id);
               (str "FROM_FILE_TAG",
                {| name := str "FROM_FILE_TAG"; value := PDict [] |})])] |}).
Proof. by vm_compute. Qed.

(** What [json.loads] accepts decides, not the JSON grammar: [NaN] is no
    JSON text, yet [json.loads] decodes it, and with [--state NaN] the
    original callback is called, with the decoded value in the payload. *)
Lemma nan_state_is_decoded :
  let w := {| files := ∅; calls := [] |} in
  let component_id := Example.arg "component_id" (PStr (str "x1")) in
  let state := Example.arg "state" (PStr (str "NaN")) in
  JSON.loads (str "NaN") = Ok (PFloat S754_nan)
  ∧ create_components_shim (E := Example.externals) Example.func
      component_id state [] w
    = (Ok PNone,
       {| files := ∅;
          calls :=
            [([str "components"; str "update"],
              [(str "component_id", component_id);
               (str "FROM_FILE_TAG",
                {| name := str "FROM_FILE_TAG";
                   value := PDict [(str "state", PFloat S754_nan)] |})])] |}).
Proof. by vm_compute. Qed.

(** C8, as the code has it, at work: a file and a state that hold [{]. *)
Lemma malformed_json_aborts_witness :
  let w := Example.world_with (str "{") in
  let configuration_id := Example.arg "configuration_id" (PStr (str "c1")) in
  let file := Example.arg "file" (PStr (str "cfg.json")) in
  let update_branches := Example.arg "update_branches" PNone in
  let component_id := Example.arg "component_id" (PStr (str "x1")) in
  let state := Example.arg "state" (PStr (str "{")) in
  let e := JSONDecodeError
             (str "Expecting property name enclosed in double quotes") in
  JSON.loads (str "{") = Raise e
  ∧ create_configurations_shim (E := Example.externals)
      Example.update_callback Example.patch_callback
      configuration_id file update_branches [] w
    = (Raise e, w)
  ∧ create_components_shim (E := Example.externals) Example.func
      component_id state [] w
    = (Raise e, w).
Proof.
  intros w configuration_id file update_branches component_id state e.
  assert (Hloads : JSON.loads (str "{") = Raise e) by (by vm_compute).
  destruct (malformed_json_aborts (E := Example.externals)
              Example.update_callback Example.patch_callback Example.func
              configuration_id file update_branches component_id state [] w e)
    as [Hfile Hstate].
  split; [exact Hloads|]. split.
  - apply (Hfile (str "cfg.json") (str "{"));
      [reflexivity | discriminate | by vm_compute | exact Hloads].
  - apply (Hstate (str "{")); [reflexivity | discriminate | exact Hloads].
Defined.

(** C9 at work: an option that was not supplied leaves no key. *)
Lemma sessions_target_always_present_witness :
  let w := {| files := ∅; calls := [] |} in
  let kw := [(str "name", Example.arg "name" PNone)] in
  ∃ payload : dict pyval,
    create_sessions_shim (E := Example.externals) Example.func
      (Example.arg "target-definition" PNone)
      (Example.arg "target-group" (PList [])) kw w
    = Example.func (with_payload (E := Example.externals) (PDict payload) kw) w
    ∧ get (str "target") payload
      = Some (PDict [(str "definition", PNone); (str "groups", PList [])])
    ∧ get (str "name") payload = None.
Proof.
  intros w kw.
  destruct (sessions_target_always_present (E := Example.externals)
              Example.func (Example.arg "target-definition" PNone)
              (Example.arg "target-group" (PList [])) kw w
              tt (Example.opt "target_group" "target-group")
              (str "target-definition"))
    as [(payload & Hcall & Htarget & Hother) _].
  exists payload. split; [exact Hcall|]. split; [exact Htarget|].
  apply Hother; [discriminate|].
  intros k v Hin _. apply list_elem_of_singleton in Hin.
  injection Hin as -> ->. reflexivity.
Defined.

(** * Further properties *)

(** ** [_targets_callback] *)

Lemma length_split (sep : char) (s : list char) :
  length (split sep s) = S (length (filter (fun c => c = sep) s)).
Proof.
  induction s as [|c s IH]; [done|]. cbn [split].
  destruct (N.eqb_spec c sep) as [->|Hne].
  - rewrite filter_cons_True by done. simpl. by rewrite IH.
  - rewrite filter_cons_False by done.
    pose proof (split_nonempty sep s) as Hn.
    destruct (split sep s) as [|tok toks]; [done|]. by rewrite <- IH.
Qed.

Lemma is_clean_spec (m : pystr) : is_clean m = true → clean_member m.
Proof.
  unfold is_clean, clean_member. intros H.
  apply andb_true_iff in H as [H Hlast].
  apply andb_true_iff in H as [Hcomma Hhead].
  apply bool_decide_eq_true_1 in Hcomma. split; [done|].
  intros c [Hc|Hc]; rewrite Hc in *; by apply negb_true_iff.
Qed.

Lemma strip_clean (ms : list pystr) :
  Forall clean_member ms → strip <$> ms = ms.
Proof.
  induction 1 as [|m ms [_ Hm] _ IH]; [done|].
  by rewrite fmap_cons, IH, (strip_id m Hm).
Qed.

Lemma parsed_round_trip (v : list (pystr * list pystr)) :
  Forall (fun gm => gm.2 ≠ [] ∧ Forall clean_member gm.2) v →
  (fun '(group, members) =>
     PDict [(str "name", PStr group);
            (str "members",
             PList (PStr <$> (strip <$> split comma members)))])
    <$> ((fun gm => (gm.1, join comma gm.2)) <$> v)
  = (fun gm => group_record gm.1 gm.2) <$> v.
Proof.
  induction 1 as [|[g ms] v [Hne Hms] _ IH]; [done|].
  rewrite !fmap_cons, IH. f_equal. unfold group_record. cbn [fst snd] in *.
  rewrite split_unique; [by rewrite strip_clean | done |].
  eapply Forall_impl; [exact Hms|]. by intros m [? _].
Qed.

(** X1: a list of clean member names, joined by commas and given to the
    callback, comes back as it was: for every sequence of groups, each with
    at least one member, the parsed records hold exactly the names and the
    members the texts were built from. *)
Theorem targets_callback_round_trip (ctx : context) (param : Param.t)
    (v : list (pystr * list pystr)) :
  Forall (fun gm => gm.2 ≠ [] ∧ Forall clean_member gm.2) v →
  _targets_callback (R := opt_value) None ctx param
    ((fun gm => (gm.1, join comma gm.2)) <$> v)
  = inl (PList ((fun gm => group_record gm.1 gm.2) <$> v)).
Proof.
  intros Hv. unfold _targets_callback.
  by rewrite targets_loop, app_nil_l, parsed_round_trip.
Qed.

(** X2: the callback yields one record per repetition, and each record has
    one member more than its text has commas: nothing is dropped.  An empty
    text gives the single member [''], not an empty list of members. *)
Theorem targets_callback_counts (ctx : context) (param : Param.t)
    (v : list (pystr * pystr)) :
  (∃ groups : list pyval,
     _targets_callback (R := opt_value) None ctx param v = inl (PList groups)
     ∧ Forall2
         (fun gm group =>
            ∃ members, group = group_record gm.1 members
                       ∧ length members = S (commas gm.2))
         v groups)
  ∧ ∀ g, _targets_callback (R := opt_value) None ctx param [(g, [])]
         = inl (PList [group_record g [[]]]).
Proof.
  split; [|done].
  eexists. split.
  - unfold _targets_callback. rewrite targets_loop. reflexivity.
  - simpl. induction v as [|[g text] v IH]; simpl; constructor; [|done].
    eexists. split; [reflexivity|].
    rewrite length_fmap. apply length_split.
Qed.

(** ** The payload shims *)

Section MoreShims.

Context `{E : Externals}.

Implicit Types (kw : kwargs) (w : world).

Lemma remove_set {V : Type} (k : pystr) (v : V) (d : dict V) :
  remove k (set k v d) = remove k d.
Proof.
  induction d as [|[k' v'] d IH]; simpl.
  - by rewrite decide_True.
  - destruct (decide (k' = k)) as [->|Hne]; simpl.
    + by rewrite decide_True.
    + by rewrite decide_False, IH.
Qed.

Lemma supplied_last (n : pystr) (kw : kwargs) (v : pyval) :
  last (supplied n kw) = Some v →
  v ≠ PNone ∧ ∃ k o, (k, o) ∈ kw ∧ name o = n ∧ value o = v.
Proof.
  intros Hlast. apply last_Some in Hlast as [l Hl].
  assert (Hin : v ∈ supplied n kw) by (rewrite Hl; set_solver).
  unfold supplied in Hin. apply list_elem_of_omap in Hin as ([k o] & Hin & Ho).
  destruct (bool_decide (name o = n) && negb (is_None (value o))) eqn:Hc;
    [|done].
  injection Ho as <-. apply andb_true_iff in Hc as [Hn Hv].
  apply bool_decide_eq_true_1 in Hn. split; [|by eauto].
  intros Hnone. by rewrite Hnone in Hv.
Qed.

Lemma supplied_elem (kw : kwargs) (k : pystr) (o : opt_value) :
  (k, o) ∈ kw → value o ≠ PNone → is_Some (last (supplied (name o) kw)).
Proof.
  intros Hin Hv.
  assert (Hs : value o ∈ supplied (name o) kw).
  { unfold supplied. apply list_elem_of_omap. exists (k, o). split; [done|].
    rewrite bool_decide_eq_true_2 by done. by destruct (value o). }
  destruct (supplied (name o) kw) as [|x l] eqn:Hl using rev_ind.
  - by apply elem_of_nil in Hs.
  - rewrite last_snoc. eauto.
Qed.

(** X3: every entry of the payload of [sessions create] other than
    [target] comes from an option that was supplied, under the payload name
    of that option, and its value is never [None]; and every option that
    was supplied has its payload name among the keys. *)
Theorem sessions_payload_entries (target_definition target_group : opt_value)
    kw :
  ∃ payload : dict pyval,
    (∀ (func : pycallable) w,
       create_sessions_shim func target_definition target_group kw w
       = func (with_payload (PDict payload) kw) w)
    ∧ (∀ n v, get n payload = Some v →
              n = str "target"
              ∨ (v ≠ PNone
                 ∧ ∃ k o, (k, o) ∈ kw ∧ name o = n ∧ value o = v))
    ∧ (∀ k o, (k, o) ∈ kw → value o ≠ PNone →
              is_Some (get (name o) payload)).
Proof.
  eexists. split; [intros func w; apply sessions_shim_forwards|]. split.
  - intros n v. rewrite sessions_payload_get. case_decide; [by left|].
    intros Hlast. right. by apply supplied_last.
  - intros k o Hin Hv. rewrite sessions_payload_get.
    case_decide; [done|]. by eapply supplied_elem.
Qed.

(** X4: the original callback of [sessions create] receives the options as
    the shim received them: the entry under [FROM_FILE_TAG] is the only one
    set; every other entry is the same and in the same place.  The two
    target options are not handed on. *)
Theorem sessions_options_forwarded (target_definition target_group : opt_value)
    kw :
  ∃ kw' : kwargs,
    (∀ (func : pycallable) w,
       create_sessions_shim func target_definition target_group kw w
       = func kw' w)
    ∧ remove FROM_FILE_TAG kw' = remove FROM_FILE_TAG kw
    ∧ (∀ k, k ≠ FROM_FILE_TAG → get k kw' = get k kw)
    ∧ (∃ payload, get FROM_FILE_TAG kw'
                  = Some {| name := FROM_FILE_TAG; value := PDict payload |}).
Proof.
  eexists. split; [intros func w; apply sessions_shim_forwards|].
  unfold with_payload. split; [apply remove_set|]. split.
  - intros k Hk. by apply get_set_ne.
  - eexists. apply get_set_eq.
Qed.

(** X5: with a [--state] text that decodes, the payload of
    [components update] holds the decoded value, whatever it is, under
    [state], also when another option carries that payload name; every
    other key holds what the options supplied.  The payload is the same for
    every component id: the id travels beside the payload, as a keyword of
    the call. *)
Theorem components_payload_entries (state : opt_value) kw (parsed : pyval) :
  truthy (value state) = true →
  json_loads_value (value state) = Ok parsed →
  ∃ payload : dict pyval,
    (∀ (func : pycallable) (component_id : opt_value) w,
       create_components_shim func component_id state kw w
       = func
           ((str "component_id", component_id)
              :: with_payload (PDict payload) kw) w)
    ∧ get (str "state") payload = Some parsed
    ∧ ∀ n, n ≠ str "state" → get n payload = last (supplied n kw).
Proof.
  intros Hs Hp. eexists.
  split; [intros func cid w; by apply components_shim_with_state|].
  split; [apply get_set_eq|].
  intros n Hn. rewrite get_set_ne by done. apply option_payload_get.
Qed.

(** X6: without a [--file] value (absent, or the empty string) and with
    [--update-branches], the command calls the patch callback with the
    configuration id and the options exactly as received: no payload is put
    under [FROM_FILE_TAG], no file is opened, and the update callback plays
    no part. *)
Theorem update_branches_calls_patch (update_callback patch_callback : pycallable)
    (configuration_id file update_branches : opt_value) kw w :
  value file = PNone ∨ value file = PStr [] →
  truthy (value update_branches) = true →
  create_configurations_shim update_callback patch_callback
    configuration_id file update_branches kw w
  = patch_callback ((str "configuration_id", configuration_id) :: kw) w.
Proof.
  intros Hf Hu.
  rewrite shim_without_file by (by destruct Hf as [-> | ->]).
  by rewrite Hu.
Qed.


End MoreShims.

(** ** The rebuilt parameter lists *)

Lemma fold_left_keep {A : Type} (b : A → bool) (l acc : list A) :
  fold_left (fun acc x => if negb (b x) then acc ++ [x] else acc) l acc
  = acc ++ filter (fun x => b x = false) l.
Proof.
  revert acc. induction l as [|x l IH]; intros acc; simpl.
  - by rewrite app_nil_r.
  - rewrite IH. destruct (b x) eqn:Hb; simpl.
    + by rewrite filter_cons_False by congruence.
    + rewrite filter_cons_True by done. by rewrite <- app_assoc.
Qed.

Lemma params_set_params (ps : list Param.t) (cmd : command) :
  params (set_params ps cmd) = ps.
Proof. by destruct cmd. Qed.

Lemma params_set_callback (cb : pycallable) (cmd : command) :
  params (set_callback cb cmd) = params cmd.
Proof. by destruct cmd. Qed.



Lemma create_cmd_params_plain (ps acc : list Param.t) :
  Forall other_param ps →
  fold_left
    (fun params p =>
       if bool_decide (Param.payload_name p
                         ∈ [GROUP_MEMBERS_PAYLOAD; GROUP_NAME_PAYLOAD])
       then params
       else if bool_decide (Param.payload_name p = GROUPS_PAYLOAD)
       then take 1 params ++ p :: drop 1 params
       else params ++ [p])
    ps acc
  = acc ++ filter kept_param ps.
Proof.
  intros Hps. revert acc.
  induction Hps as [|p ps Hp _ IH]; intros acc; simpl.
  - by rewrite app_nil_r.
  - rewrite IH. case_bool_decide as Hdrop.
    + by rewrite filter_cons_False by (unfold kept_param; tauto).
    + rewrite filter_cons_True by done.
      rewrite bool_decide_eq_false_2 by done. by rewrite <- app_assoc.
Qed.

Lemma groups_payload_kept :
  GROUPS_PAYLOAD ∉ [GROUP_MEMBERS_PAYLOAD; GROUP_NAME_PAYLOAD].
Proof.
  rewrite !not_elem_of_cons. split; [done|]. split; [done|].
  apply not_elem_of_nil.
Qed.

(** Where the [--target-group] option lands when it is the last option
    attached and the only one of its payload name. *)
Lemma create_cmd_params_position (ps : list Param.t) (g : Param.t) :
  Forall other_param ps →
  Param.payload_name g = GROUPS_PAYLOAD →
  create_cmd_params (ps ++ [g])
  = take 1 (filter kept_param ps) ++ g :: drop 1 (filter kept_param ps).
Proof.
  intros Hps Hg. unfold create_cmd_params. rewrite fold_left_app.
  rewrite (create_cmd_params_plain ps []) by done. simpl.
  rewrite bool_decide_eq_false_2 by (rewrite Hg; apply groups_payload_kept).
  by rewrite bool_decide_eq_true_2.
Qed.

(** ** The patches, on the tree *)

Section MoreTree.

Context `{E : Externals}.

Lemma params_core_option flag pn is_flag multiple nargs required
    (cmd : command) :
  params (core_option flag pn is_flag multiple nargs required cmd)
  = params cmd
    ++ [{| Param.name := replace dash underscore (lstrip_char dash flag);
           Param.payload_name :=
             default (replace dash underscore (lstrip_char dash flag)) pn;
           Param.is_flag := is_flag;
           Param.multiple := multiple;
           Param.nargs := nargs;
           Param.required := required |}].
Proof. by destruct cmd. Qed.

(** The rebuild both [setup_] functions do: the options just attached
    first, then the generated ones that are not scoped to the prefix. *)
Lemma rebuilt_params (prefix : pystr) (olds news : list Param.t) (n : nat) :
  n = length news →
  fold_left
    (fun new_params param =>
       if negb (startswith (Param.name param) prefix)
       then new_params ++ [param] else new_params)
    (take (length (olds ++ news) - n) (olds ++ news))
    (drop (length (olds ++ news) - n) (olds ++ news))
  = news ++ filter (unscoped prefix) olds.
Proof.
  intros ->. rewrite length_app.
  replace (length olds + length news - length news) with (length olds)
    by lia.
  rewrite take_app_length, drop_app_length.
  apply (fold_left_keep (fun p => startswith (Param.name p) prefix)).
Qed.

(** X10: after [setup_configuration_from_file], the parameters of
    [configurations update] are [--file], then the flag
    [--update-branches], then the parameters generated for the command
    under the [patch] vocabulary, in their order, without those whose name
    starts with [layers_]: no layer option is left. *)
Theorem configurations_update_params (cfs_cli cli' : command) :
  setup_configuration_from_file cfs_cli = Ok cli' →
  ∃ (tmp update patched : command) (pfile pbranches : Param.t),
    select_version
      (generate [(str "vocabulary", [(str "patch", str "patch")])])
    = Ok tmp
    ∧ action (str "configurations") (str "update") tmp = Ok update
    ∧ action (str "configurations") (str "update") cli' = Ok patched
    ∧ params patched
      = pfile :: pbranches
          :: filter (unscoped (str "layers_")) (params update)
    ∧ Param.name pfile = str "file"
    ∧ Param.name pbranches = str "update_branches"
    ∧ Param.is_flag pbranches = true
    ∧ Forall (unscoped (str "layers_")) (params patched).
Proof.
  unfold setup_configuration_from_file. intros H.
  apply result_bind_Ok in H as (tmp & Htmp & H). cbv zeta in H.
  apply result_bind_Ok in H as (confs & Hconfs & H).
  apply result_bind_Ok in H as (update & Hupdate & H).
  apply result_bind_Ok in H as (patch & Hpatch & H).
  apply result_bind_Ok in H as (r & Hr & H).
  apply result_bind_Ok in H as (r' & Hr' & H).
  exists tmp, update. eexists _, _, _. split; [done|].
  unfold action at 1. rewrite Hconfs. simpl. split; [done|].
  split; [by eapply action_stored|].
  rewrite params_set_callback, params_set_params.
  rewrite !params_core_option, <- app_assoc. cbn [app].
  rewrite (rebuilt_params (str "layers_") (params update) [_; _] 2 eq_refl).
  split; [reflexivity|]. split; [reflexivity|]. split; [reflexivity|].
  split; [reflexivity|].
  repeat (constructor; [reflexivity|]).
  apply Forall_forall. intros p Hin.
  by apply list_elem_of_filter in Hin as [? _].
Qed.

(** X11: after [setup_component_state], the parameters of
    [components update] are [--state], then the generated ones, in their
    order, without those whose name starts with [state_]. *)
Theorem components_update_params (cfs_cli cli' : command) :
  setup_component_state cfs_cli = Ok cli' →
  ∃ (update patched : command) (pstate : Param.t),
    action (str "components") (str "update") cfs_cli = Ok update
    ∧ action (str "components") (str "update") cli' = Ok patched
    ∧ params patched
      = pstate :: filter (unscoped (str "state_")) (params update)
    ∧ Param.name pstate = str "state"
    ∧ Param.required pstate = false
    ∧ Forall (unscoped (str "state_")) (params patched).
Proof.
  unfold setup_component_state. intros H.
  apply result_bind_Ok in H as (r & Hr & H).
  apply result_bind_Ok in H as (update & Hupdate & H). cbv zeta in H.
  apply result_bind_Ok in H as (r' & Hr' & H).
  exists update. eexists _, _.
  unfold action at 1. rewrite Hr. simpl. split; [done|].
  split; [by eapply action_stored|].
  rewrite params_set_callback, params_set_params.
  rewrite !params_core_option.
  rewrite (rebuilt_params (str "state_") (params update) [_] 1 eq_refl).
  split; [reflexivity|]. split; [reflexivity|]. split; [reflexivity|].
  constructor; [reflexivity|].
  apply Forall_forall. intros p Hin.
  by apply list_elem_of_filter in Hin as [? _].
Qed.

End MoreTree.

Section Frame.

Context `{E : Externals}.

Lemma action_set_ne (res k a : pystr) (sub r r' t t' : command) :
  subcommand res t = Ok r →
  set_subcommand k sub r = Ok r' →
  set_subcommand res r' t = Ok t' →
  a ≠ k →
  action res a t' = action res a t.
Proof.
  intros Hr Hr' Ht Ha. unfold action.
  rewrite (subcommand_set_subcommand_eq _ _ _ _ Ht), Hr. simpl.
  by apply (subcommand_set_subcommand_ne _ _ _ _ _ Hr').
Qed.

Lemma action_other (res res' a : pystr) (sub t t' : command) :
  set_subcommand res sub t = Ok t' → res ≠ res' →
  action res' a t' = action res' a t.
Proof.
  intros Ht Hne. apply action_keeps.
  by apply (subcommand_set_subcommand_ne _ _ _ _ _ Ht).
Qed.

Lemma setup_configuration_frame (cfs_cli cli' : command) (r a : pystr) :
  setup_configuration_from_file cfs_cli = Ok cli' →
  (r, a) ≠ (str "configurations", str "update") →
  action r a cli' = action r a cfs_cli.
Proof.
  unfold setup_configuration_from_file. intros H Hne.
  do 4 (apply result_bind_Ok in H as (? & _ & H); cbv zeta in H).
  apply result_bind_Ok in H as (r0 & Hr0 & H).
  apply result_bind_Ok in H as (r' & Hr' & H).
  destruct (decide (r = str "configurations")) as [->|Hr].
  - eapply action_set_ne; [done..|]. congruence.
  - by eapply action_other.
Qed.

Lemma setup_component_frame (cfs_cli cli' : command) (r a : pystr) :
  setup_component_state cfs_cli = Ok cli' →
  (r, a) ≠ (str "components", str "update") →
  action r a cli' = action r a cfs_cli.
Proof.
  unfold setup_component_state. intros H Hne.
  apply result_bind_Ok in H as (r0 & Hr0 & H).
  apply result_bind_Ok in H as (? & _ & H). cbv zeta in H.
  apply result_bind_Ok in H as (r' & Hr' & H).
  destruct (decide (r = str "components")) as [->|Hr].
  - eapply action_set_ne; [done..|]. congruence.
  - by eapply action_other.
Qed.


(** What the configurations patch needs of the tree it is given. *)
Lemma setup_configuration_needs (cfs_cli cli' : command) :
  setup_configuration_from_file cfs_cli = Ok cli' →
  ∃ r cs, subcommand (str "configurations") cfs_cli = Ok r
          ∧ commands r = Ok cs.
Proof.
  unfold setup_configuration_from_file. intros H.
  do 4 (apply result_bind_Ok in H as (? & _ & H); cbv zeta in H).
  apply result_bind_Ok in H as (r0 & Hr0 & H).
  apply result_bind_Ok in H as (r' & Hr' & H).
  apply set_subcommand_Ok in Hr' as (cs & Hcs & _). eauto.
Qed.

(** X13: the module body runs to its end exactly when the two generated
    trees have what it reaches for: the version [v2]; under the [patch]
    vocabulary, [configurations update] and [configurations patch]; under
    the module's vocabulary, a [configurations] group, [sessions create],
    [sessions update] and [components update]. *)
Theorem cli_completes_iff : (∃ tree, cli = Ok tree) ↔ generated_as_expected.
Proof.
  split; [|apply cli_completes].
  intros [tree Hcli].
  destruct (patched_callbacks tree Hcli)
    as (main & tmp & update & patch & create & component & Hmain & Htmp
        & Hupdate & Hpatch & Hcreate & Hcomponent & _).
  exists main, tmp. split; [done|]. split; [done|].
  split; [by eauto|]. split; [by eauto|].
  unfold cli in Hcli. rewrite Hmain in Hcli. simpl in Hcli.
  apply result_bind_Ok in Hcli as (cli1 & Hconf & H).
  apply result_bind_Ok in H as (sessions & Hsessions & H).
  apply result_bind_Ok in H as (CREATE_CMD & _ & H).
  apply result_bind_Ok in H as (cs & Hcs & H).
  apply result_bind_Ok in H as (cs' & Hdel & _).
  apply delitem_Ok in Hdel as [[u Hu] _].
  split; [by eapply setup_configuration_needs|].
  split; [by eauto|]. split; [|by eauto].
  exists u.
  rewrite <- (setup_configuration_frame _ _ _ _ Hconf) by done.
  unfold action. rewrite Hsessions. simpl.
  apply subcommand_Ok. eauto.
Qed.

(** X14: when the generated [sessions] group has no [update] command, the
    [del] statement raises [KeyError] and the import of the module
    fails. *)
Theorem missing_sessions_update_fails (main tmp r sessions : command)
    (cs scs : gmap pystr command) :
  select_version (generate SWAGGER_OPTS) = Ok main →
  select_version (generate [(str "vocabulary", [(str "patch", str "patch")])])
  = Ok tmp →
  (∃ c, action (str "configurations") (str "update") tmp = Ok c) →
  (∃ c, action (str "configurations") (str "patch") tmp = Ok c) →
  subcommand (str "configurations") main = Ok r →
  commands r = Ok cs →
  subcommand (str "sessions") main = Ok sessions →
  commands sessions = Ok scs →
  is_Some (scs !! str "create") →
  scs !! str "update" = None →
  cli = Raise (KeyError (str "update")).
Proof.
  intros Hmain Htmp Hupd Hpat Hr Hcs Hsessions Hscs [create Hcreate] Hnone.
  destruct (setup_configuration_completes main tmp r cs)
    as [cli1 Hcli1]; try done.
  rewrite <- (setup_configuration_keeps _ _ (str "sessions") Hcli1)
    in Hsessions by done.
  assert (Hc : subcommand (str "create") sessions = Ok create).
  { apply subcommand_Ok. eauto. }
  unfold cli.
  rewrite (result_bind_eq _ _ _ Hmain).
  rewrite (result_bind_eq _ _ _ Hcli1).
  rewrite (result_bind_eq _ _ _ Hsessions).
  rewrite (result_bind_eq _ _ _ Hc).
  rewrite (result_bind_eq _ _ _ Hscs).
  unfold delitem. by rewrite Hnone.
Qed.

End Frame.

Section EndToEnd.

Context `{E : Externals}.

(** X9: in the tree the module leaves, the parameters of [sessions create]
    are the generated ones without [target-groups-members] and
    [target-groups-name], in their order, with the new [--target-group]
    option (two values, repeatable) in second place, or first when nothing
    else is left. *)
Theorem sessions_create_params (tree main create : command) :
  cli = Ok tree →
  select_version (generate SWAGGER_OPTS) = Ok main →
  action (str "sessions") (str "create") main = Ok create →
  Forall other_param (params create) →
  ∃ (patched : command) (g : Param.t),
    action (str "sessions") (str "create") tree = Ok patched
    ∧ Param.name g = str "target_group"
    ∧ Param.payload_name g = GROUPS_PAYLOAD
    ∧ Param.multiple g = true
    ∧ Param.nargs g = 2
    ∧ params patched
      = take 1 (filter kept_param (params create))
        ++ g :: drop 1 (filter kept_param (params create)).
Proof.
  unfold cli. intros H Hmain Hcreate Hother.
  rewrite Hmain in H. simpl in H.
  apply result_bind_Ok in H as (cli1 & Hconf & H).
  apply result_bind_Ok in H as (sessions & Hsessions & H).
  apply result_bind_Ok in H as (CREATE_CMD & HCREATE & H).
  apply result_bind_Ok in H as (cs & Hcs & H).
  apply result_bind_Ok in H as (cs' & Hdel & H). cbv zeta in H.
  apply result_bind_Ok in H as (cli2 & Hstore & H).
  assert (CREATE_CMD = create) as ->.
  { rewrite <- (setup_configuration_frame _ _ _ _ Hconf) in Hcreate by done.
    unfold action in Hcreate. rewrite Hsessions in Hcreate. simpl in Hcreate.
    congruence. }
  eexists _, _. split.
  - rewrite (setup_component_frame _ _ _ _ H) by done.
    unfold action.
    rewrite (subcommand_set_subcommand_eq _ _ _ _ Hstore). simpl.
    unfold subcommand. rewrite commands_set_commands. simpl.
    apply getitem_Ok, lookup_insert_eq.
  - rewrite params_set_callback, params_set_params, params_core_option.
    rewrite create_cmd_params_position by done.
    repeat split; reflexivity.
Qed.

Lemma set_commands_set_commands (cs cs' : gmap pystr command)
    (cmd : command) :
  set_commands cs (set_commands cs' cmd) = set_commands cs cmd.
Proof. by destruct cmd. Qed.

(** X16: [setup_configuration_from_file] never looks at the [update]
    command of the tree it patches: whatever that command was, the patch
    gives the same tree, for the new command is built from the tree
    generated under the [patch] vocabulary. *)
Theorem setup_configuration_replaces (cfs_cli cfs_cli' r r' c : command) :
  subcommand (str "configurations") cfs_cli = Ok r →
  set_subcommand (str "update") c r = Ok r' →
  set_subcommand (str "configurations") r' cfs_cli = Ok cfs_cli' →
  setup_configuration_from_file cfs_cli'
  = setup_configuration_from_file cfs_cli.
Proof.
  intros Hr Hr' Hcli'.
  pose proof (subcommand_set_subcommand_eq _ _ _ _ Hcli') as Hsub.
  apply set_subcommand_Ok in Hr' as (cs & Hcs & ->).
  apply set_subcommand_Ok in Hcli' as (clis & Hclis & ->).
  unfold setup_configuration_from_file.
  destruct (select_version _) as [tmp|e]; [|done]. simpl.
  destruct (subcommand (str "configurations") tmp) as [confs|e]; [|done].
  simpl.
  destruct (subcommand (str "update") confs) as [update|e]; [|done]. simpl.
  destruct (subcommand (str "patch") confs) as [patch|e]; [|done]. simpl.
  rewrite Hsub, Hr. cbn [mbind result_bind].
  match goal with
  | |- context [set_subcommand (str "update") ?u r] => generalize u
  end.
  intros u.
  rewrite (result_bind_eq _ _ _
             (set_subcommand_completes _ u _ _ (commands_set_commands _ _))).
  rewrite (result_bind_eq _ _ _ (set_subcommand_completes _ u _ _ Hcs)).
  rewrite (set_subcommand_completes _ _ _ _ (commands_set_commands _ _)).
  rewrite (set_subcommand_completes _ _ _ _ Hclis).
  by rewrite !set_commands_set_commands, !insert_insert_eq.
Qed.

(** X18: calling the patched [sessions create] command with keyword
    arguments calls the callback the generator made for it, with the other
    options and, under [FROM_FILE_TAG], a payload whose [target] is built
    from the two target options. *)
Theorem patched_create_sends_target (tree main create : command)
    (args : kwargs) (target_definition target_group : opt_value) (w : world) :
  cli = Ok tree →
  select_version (generate SWAGGER_OPTS) = Ok main →
  action (str "sessions") (str "create") main = Ok create →
  get (str "target_definition") args = Some target_definition →
  get (str "target_group") (remove (str "target_definition") args)
  = Some target_group →
  ∃ (patched : command) (payload : dict pyval),
    action (str "sessions") (str "create") tree = Ok patched
    ∧ callback patched args w
      = callback create
          (with_payload (PDict payload)
             (remove (str "target_group")
                (remove (str "target_definition") args))) w
    ∧ get (str "target") payload
      = Some (PDict [(str "definition", value target_definition);
                     (str "groups", value target_group)]).
Proof.
  intros Hcli Hmain Hcreate Htd Htg.
  destruct (patched_callbacks tree Hcli)
    as (main' & tmp & update & patch & create' & component & Hmain' & _ & _
        & _ & Hcreate' & _ & _ & (c & Hc & Hcb) & _).
  assert (main' = main) as -> by congruence.
  assert (create' = create) as -> by congruence.
  exists c. eexists. split; [done|]. split.
  - rewrite Hcb, (by_keyword2_call _ _ _ _ _ _ _ Htd Htg).
    apply sessions_shim_forwards.
  - apply get_set_eq.
Qed.

(** X19: calling the patched [configurations update] command with a
    [file] value that names a file of valid JSON calls the update callback
    of the tree generated under the [patch] vocabulary, with the decoded
    content as the payload. *)
Theorem patched_update_sends_file (tree tmp update : command)
    (args : kwargs) (configuration_id file update_branches : opt_value)
    (w : world) (path content : pystr) (data : pyval) :
  cli = Ok tree →
  select_version (generate [(str "vocabulary", [(str "patch", str "patch")])])
  = Ok tmp →
  action (str "configurations") (str "update") tmp = Ok update →
  get (str "configuration_id") args = Some configuration_id →
  get (str "file") (remove (str "configuration_id") args) = Some file →
  get (str "update_branches")
    (remove (str "file") (remove (str "configuration_id") args))
  = Some update_branches →
  value file = PStr path →
  path ≠ [] →
  files w !! path = Some content →
  json_loads content = Ok data →
  ∃ patched : command,
    action (str "configurations") (str "update") tree = Ok patched
    ∧ callback patched args w
      = callback update
          ((str "configuration_id", configuration_id)
             :: with_payload data
                  (remove (str "update_branches")
                     (remove (str "file")
                        (remove (str "configuration_id") args)))) w.
Proof.
  intros Hcli Htmp Hupdate Hid Hfile Hub Hvalue Hpath Hcontent Hdata.
  destruct (patched_callbacks tree Hcli)
    as (main & tmp' & update' & patch & create & component & _ & Htmp'
        & Hupdate' & _ & _ & _ & (c & Hc & Hcb) & _).
  assert (tmp' = tmp) as -> by congruence.
  assert (update' = update) as -> by congruence.
  exists c. split; [done|].
  rewrite Hcb, (by_keyword3_call _ _ _ _ _ _ _ _ _ Hid Hfile Hub).
  rewrite shim_with_file by (rewrite Hvalue; by destruct path).
  rewrite Hvalue. unfold mbind, M_bind.
  rewrite (open_read_file _ _ _ Hcontent). unfold lift. by rewrite Hdata.
Qed.

Lemma option_payload_values (kw kw' : kwargs) :
  kw.*2 = kw'.*2 → option_payload kw = option_payload kw'.
Proof.
  unfold option_payload. generalize (@nil (pystr * pyval)).
  revert kw'. induction kw as [|[k v] kw IH]; intros [|[k' v'] kw'] acc;
    try done.
  rewrite !fmap_cons. intros [= -> Hkw]. simpl. by apply IH.
Qed.

(** X17: the payload is keyed by the payload names the options carry,
    not by the parameter names they are passed under: two calls whose
    options are the same, under whatever keywords, assemble the same
    payload. *)
Theorem payload_ignores_keywords (target_definition target_group : opt_value)
    (kw kw' : kwargs) :
  kw.*2 = kw'.*2 →
  ∃ payload : dict pyval,
    (∀ (func : pycallable) w,
       create_sessions_shim func target_definition target_group kw w
       = func (with_payload (PDict payload) kw) w)
    ∧ (∀ (func : pycallable) w,
         create_sessions_shim func target_definition target_group kw' w
         = func (with_payload (PDict payload) kw') w).
Proof.
  intros Hkw. eexists. split.
  - intros func w. apply sessions_shim_forwards.
  - intros func w. rewrite sessions_shim_forwards.
    by rewrite (option_payload_values kw' kw).
Qed.

End EndToEnd.

(** ** The further statements at work *)

(** X1 at work. *)
Lemma targets_callback_round_trip_witness :
  _targets_callback (R := opt_value) None tt
    (Example.opt "target_group" "target-group")
    [(str "A", join comma [str "m1"; str "m2"]); (str "B", join comma [[]])]
  = inl (PList [group_record (str "A") [str "m1"; str "m2"];
                group_record (str "B") [[]]]).
Proof.
  apply (targets_callback_round_trip tt
           (Example.opt "target_group" "target-group")
           [(str "A", [str "m1"; str "m2"]); (str "B", [[]])]).
  repeat constructor; (discriminate || (apply is_clean_spec; reflexivity)).
Defined.

(** X5 at work: a state that is a JSON object, and another option that
    carries the payload name [state]. *)
Lemma components_payload_entries_witness :
  let state := Example.arg "state" (PStr Example.layers_json) in
  let kw := [(str "enabled", Example.arg "enabled" (PBool true));
             (str "other", Example.arg "state" (PStr (str "x")))] in
  ∃ payload : dict pyval,
    (∀ (func : pycallable) (component_id : opt_value) w,
       create_components_shim (E := Example.externals) func component_id
         state kw w
       = func
           ((str "component_id", component_id)
              :: with_payload (E := Example.externals) (PDict payload) kw) w)
    ∧ get (str "state") payload = Some (PDict [(str "layers", PList [])])
    ∧ get (str "enabled") payload = Some (PBool true).
Proof.
  intros state kw.
  destruct (components_payload_entries (E := Example.externals) state kw
              (PDict [(str "layers", PList [])]))
    as (payload & Hcall & Hstate & Hother); [reflexivity | by vm_compute |].
  exists payload. split; [exact Hcall|]. split; [exact Hstate|].
  rewrite Hother by discriminate. reflexivity.
Defined.

(** X6 at work: [--file ''] with [--update-branches]. *)
Lemma update_branches_calls_patch_witness :
  let w := Example.world_with Example.layers_json in
  let configuration_id := Example.arg "configuration_id" (PStr (str "c1")) in
  let file := Example.arg "file" (PStr []) in
  let update_branches := Example.arg "update_branches" (PBool true) in
  let kw := [(str "name", Example.arg "name" (PStr (str "n1")))] in
  create_configurations_shim (E := Example.externals)
    Example.update_callback Example.patch_callback
    configuration_id file update_branches kw w
  = Example.patch_callback
      ((str "configuration_id", configuration_id) :: kw) w.
Proof.
  intros w configuration_id file update_branches kw.
  apply (update_branches_calls_patch (E := Example.externals));
    [by right | reflexivity].
Defined.


(** The main tree of the concrete setting, and what the configurations
    patch makes of it. *)
Lemma example_setup_configuration :
  ∃ main cli' : command,
    select_version (generate (Externals := Example.externals) SWAGGER_OPTS)
    = Ok main
    ∧ setup_configuration_from_file (E := Example.externals) main = Ok cli'.
Proof.
  destruct example_generated_as_expected
    as (main & tmp & Hmain & Htmp & Hupd & Hpat & (r & cs & Hr & Hcs) & _).
  destruct (setup_configuration_completes (E := Example.externals)
              main tmp r cs Htmp Hupd Hpat Hr Hcs) as [cli' Hcli'].
  by exists main, cli'.
Qed.

(** X10 at work. *)
Lemma configurations_update_params_witness :
  ∃ (main cli' patched : command),
    select_version (generate (Externals := Example.externals) SWAGGER_OPTS)
    = Ok main
    ∧ setup_configuration_from_file (E := Example.externals) main = Ok cli'
    ∧ action (str "configurations") (str "update") cli' = Ok patched
    ∧ Param.name <$> params patched
      = [str "file"; str "update_branches"; str "configuration_id"].
Proof.
  destruct example_setup_configuration as (main & cli' & Hmain & Hcli').
  destruct (configurations_update_params (E := Example.externals) main cli'
              Hcli')
    as (tmp & update & patched & pf & pb & Htmp & Hupdate & Hpatched
        & Hparams & Hpf & Hpb & _).
  exists main, cli', patched.
  split; [exact Hmain|]. split; [exact Hcli'|]. split; [exact Hpatched|].
  rewrite Hparams. rewrite !fmap_cons, Hpf, Hpb. do 2 f_equal.
  assert (Htmp' : select_version
                    (generate (Externals := Example.externals)
                       [(str "vocabulary", [(str "patch", str "patch")])])
                  = Ok tmp) by exact Htmp.
  injection Htmp' as <-. injection Hupdate as <-. reflexivity.
Defined.

(** The trees of the concrete setting. *)
Lemma example_trees :
  ∃ tree main tmp create update : command,
    cli (E := Example.externals) = Ok tree
    ∧ select_version (generate (Externals := Example.externals) SWAGGER_OPTS)
      = Ok main
    ∧ select_version
        (generate (Externals := Example.externals)
           [(str "vocabulary", [(str "patch", str "patch")])])
      = Ok tmp
    ∧ action (str "sessions") (str "create") main = Ok create
    ∧ action (str "configurations") (str "update") tmp = Ok update
    ∧ Forall other_param (params create).
Proof.
  destruct (cli_completes (E := Example.externals)
              example_generated_as_expected) as [tree Htree].
  exists tree. eexists _, _, _, _. split; [exact Htree|].
  split; [reflexivity|]. split; [reflexivity|]. split; [reflexivity|].
  split; [reflexivity|].
  apply (bool_decide_unpack _). by vm_compute.
Qed.

(** X9 at work. *)
Lemma sessions_create_params_witness :
  ∃ (tree create patched : command) (g : Param.t),
    cli (E := Example.externals) = Ok tree
    ∧ Forall other_param (params create)
    ∧ action (str "sessions") (str "create") tree = Ok patched
    ∧ params patched
      = take 1 (filter kept_param (params create))
        ++ g :: drop 1 (filter kept_param (params create)).
Proof.
  destruct example_trees
    as (tree & main & tmp & create & update & Htree & Hmain & _ & Hcreate
        & _ & Hother).
  destruct (sessions_create_params (E := Example.externals) tree main create
              Htree Hmain Hcreate Hother)
    as (patched & g & Hpatched & _ & _ & _ & _ & Hparams).
  exists tree, create, patched, g.
  split; [exact Htree|]. split; [exact Hother|].
  split; [exact Hpatched | exact Hparams].
Defined.

(** X11 at work. *)
Lemma components_update_params_witness :
  ∃ (main cli' update patched : command) (pstate : Param.t),
    setup_component_state (E := Example.externals) main = Ok cli'
    ∧ action (str "components") (str "update") main = Ok update
    ∧ action (str "components") (str "update") cli' = Ok patched
    ∧ params patched
      = pstate :: filter (unscoped (str "state_")) (params update).
Proof.
  destruct example_generated_as_expected
    as (main & _ & _ & _ & _ & _ & _ & _ & _ & Hcomp).
  destruct (setup_component_completes (E := Example.externals) main Hcomp)
    as [cli' Hcli'].
  destruct (components_update_params (E := Example.externals) main cli' Hcli')
    as (update & patched & pstate & Hupdate & Hpatched & Hparams & _).
  exists main, cli', update, patched, pstate.
  split; [exact Hcli'|]. split; [exact Hupdate|].
  split; [exact Hpatched | exact Hparams].
Defined.


(** X14 at work: the import fails in the setting without
    [sessions update]. *)
Lemma missing_sessions_update_fails_witness :
  cli (E := Missing.externals) = Raise (KeyError (str "update")).
Proof.
  eapply (missing_sessions_update_fails (E := Missing.externals));
    [reflexivity | reflexivity | eexists; reflexivity | eexists; reflexivity
    | reflexivity | reflexivity | reflexivity | reflexivity
    | eexists; reflexivity | reflexivity].
Defined.

(** X15 at work. *)
Lemma patched_update_needs_file_or_branches_witness :
  let w := {| files := ∅; calls := [] |} in
  let args :=
    [(str "configuration_id", Example.arg "configuration_id" (PStr (str "c1")));
     (str "file", Example.arg "file" PNone);
     (str "update_branches", Example.arg "update_branches" (PBool false))] in
  ∃ tree c : command,
    cli (E := Example.externals) = Ok tree
    ∧ action (str "configurations") (str "update") tree = Ok c
    ∧ callback c args w = (Raise usage_error, w).
Proof.
  intros w args.
  destruct example_trees as (tree & _ & _ & _ & _ & Htree & _).
  destruct (patched_update_needs_file_or_branches (E := Example.externals)
              tree args
              (Example.arg "configuration_id" (PStr (str "c1")))
              (Example.arg "file" PNone)
              (Example.arg "update_branches" (PBool false)) w Htree
              eq_refl eq_refl eq_refl eq_refl eq_refl)
    as (c & Hc & Hcall).
  exists tree, c. split; [exact Htree|]. split; [exact Hc | exact Hcall].
Defined.

(** X16 at work: the [update] command of the main tree replaced by
    another one before the patch. *)
Lemma setup_configuration_replaces_witness :
  ∃ main main' r r' : command,
    subcommand (str "configurations") main = Ok r
    ∧ set_subcommand (str "update") (Example.leaf ["other"] []) r = Ok r'
    ∧ set_subcommand (str "configurations") r' main = Ok main'
    ∧ setup_configuration_from_file (E := Example.externals) main'
      = setup_configuration_from_file (E := Example.externals) main.
Proof.
  destruct example_generated_as_expected
    as (main & _ & _ & _ & _ & _ & (r & cs & Hr & Hcs) & _).
  apply subcommand_Ok in Hr as Hmain. destruct Hmain as (clis & Hclis & _).
  set (r' := set_commands
               (<[str "update" := Example.leaf ["other"] []]> cs) r).
  pose proof (set_subcommand_completes (str "update")
                (Example.leaf ["other"] []) r cs Hcs) as Hr'.
  pose proof (set_subcommand_completes (str "configurations") r' main clis
                Hclis) as Hmain'.
  eexists main, _, r, r'.
  split; [exact Hr|]. split; [exact Hr'|]. split; [exact Hmain'|].
  exact (setup_configuration_replaces (E := Example.externals) _ _ _ _ _
           Hr Hr' Hmain').
Defined.

(** X17 at work. *)
Lemma payload_ignores_keywords_witness :
  let name_option := Example.arg "name" (PStr (str "n1")) in
  let kw := [(str "name", name_option)] in
  let kw' := [(str "session_name", name_option)] in
  kw.*2 = kw'.*2
  ∧ ∃ payload : dict pyval,
      (∀ (func : pycallable) w,
         create_sessions_shim (E := Example.externals) func
           (Example.arg "target-definition" PNone)
           (Example.arg "target-group" (PList [])) kw w
         = func (with_payload (E := Example.externals) (PDict payload) kw) w)
      ∧ (∀ (func : pycallable) w,
           create_sessions_shim (E := Example.externals) func
             (Example.arg "target-definition" PNone)
             (Example.arg "target-group" (PList [])) kw' w
           = func (with_payload (E := Example.externals) (PDict payload) kw')
               w).
Proof.
  intros name_option kw kw'. split; [reflexivity|].
  exact (payload_ignores_keywords (E := Example.externals)
           (Example.arg "target-definition" PNone)
           (Example.arg "target-group" (PList [])) kw kw' eq_refl).
Defined.

(** X18 at work. *)
Lemma patched_create_sends_target_witness :
  let w := {| files := ∅; calls := [] |} in
  let target_definition :=
    Example.arg "target-definition" (PStr (str "image")) in
  let target_group := Example.arg "target-group" (PList []) in
  let args :=
    [(str "name", Example.arg "name" (PStr (str "n1")));
     (str "target_definition", target_definition);
     (str "target_group", target_group)] in
  ∃ (tree create patched : command) (payload : dict pyval),
    cli (E := Example.externals) = Ok tree
    ∧ action (str "sessions") (str "create") tree = Ok patched
    ∧ callback patched args w
      = callback create
          (with_payload (E := Example.externals) (PDict payload)
             [(str "name", Example.arg "name" (PStr (str "n1")))]) w
    ∧ get (str "target") payload
      = Some (PDict [(str "definition", PStr (str "image"));
                     (str "groups", PList [])]).
Proof.
  intros w target_definition target_group args.
  destruct example_trees
    as (tree & main & _ & create & _ & Htree & Hmain & _ & Hcreate & _).
  destruct (patched_create_sends_target (E := Example.externals) tree main
              create args target_definition target_group w Htree Hmain
              Hcreate eq_refl eq_refl)
    as (patched & payload & Hpatched & Hcall & Htarget).
  exists tree, create, patched, payload.
  split; [exact Htree|]. split; [exact Hpatched|].
  split; [exact Hcall | exact Htarget].
Defined.

(** X19 at work. *)
Lemma patched_update_sends_file_witness :
  let w := Example.world_with Example.layers_json in
  let configuration_id := Example.arg "configuration_id" (PStr (str "c1")) in
  let args :=
    [(str "configuration_id", configuration_id);
     (str "file", Example.arg "file" (PStr (str "cfg.json")));
     (str "update_branches", Example.arg "update_branches" (PBool false))] in
  ∃ tree update patched : command,
    cli (E := Example.externals) = Ok tree
    ∧ action (str "configurations") (str "update") tree = Ok patched
    ∧ callback patched args w
      = callback update
          ((str "configuration_id", configuration_id)
             :: with_payload (E := Example.externals)
                  (PDict [(str "layers", PList [])]) []) w.
Proof.
  intros w configuration_id args.
  destruct example_trees
    as (tree & _ & tmp & _ & update & Htree & _ & Htmp & _ & Hupdate & _).
  assert (Hpath : str "cfg.json" ≠ []) by discriminate.
  assert (Hcontent : files w !! str "cfg.json" = Some Example.layers_json)
    by (by vm_compute).
  assert (Hdata : json_loads (Externals := Example.externals)
                    Example.layers_json
                  = Ok (PDict [(str "layers", PList [])]))
    by (by vm_compute).
  destruct (patched_update_sends_file (E := Example.externals) tree tmp
              update args configuration_id
              (Example.arg "file" (PStr (str "cfg.json")))
              (Example.arg "update_branches" (PBool false)) w
              (str "cfg.json") Example.layers_json
              (PDict [(str "layers", PList [])]) Htree Htmp Hupdate
              eq_refl eq_refl eq_refl eq_refl Hpath Hcontent Hdata)
    as (patched & Hpatched & Hcall).
  exists tree, update, patched.
  split; [exact Htree|]. split; [exact Hpatched | exact Hcall].
Defined.
